(** * Incremental ingestion of the world-news backend (src/backend/main.py)

    A shallow embedding of the polling loops [fetch_youtube_feeds],
    [fetch_yemen_youtube_feeds] and [fetch_newspaper_feeds], of the fetch
    adapters [fetch_youtube_channel_videos] and [fetch_newspaper_articles],
    of the watermark tables ([ChannelLastVideo] and friends), of
    [process_event_timeline] and of the [get_event_timeline] endpoint.

    Modelling conventions.
    - A [datetime] is a [Z] timestamp; [str(published)] is a string.
    - A SQL table of watermarks keyed by a unique name is a [gmap string].
    - The JSON column [last_video_ids] is [option (list string)]: [None]
      stands for a NULL, empty or unparseable column, [Some ids] for the
      list [json.loads] returns.
    - A table of news rows is a list of rows in insertion order.
    - Exceptions raised by a database commit are modelled by a predicate
      on the row's link ([commit_fails]); exceptions of an adapter task
      collected by [asyncio.gather(..., return_exceptions=True)] are the
      right injection of a [sum]. *)

From stdpp Require Import base gmap strings list pretty.
From Stdlib Require Import ZArith Permutation QArith Sorted.
Close Scope Q_scope.

Local Open Scope string_scope.

(* ------------------------------------------------------------------ *)
(** ** Items returned by the fetch adapters *)

(** The dict built by [fetch_youtube_channel_videos] (and, with
    [article_id] for [video_id], by [fetch_newspaper_articles]). *)
Record video := mk_video {
  video_id : string;
  title : string;
  link : string;
  image_url : string;
  source : string;
  published : Z;
  summary : string
}.

(** A row of [NewsItem] / [YemenNewsItem] / [NewspaperNewsItem]. *)
Record news_row := mk_news_row {
  row_id : Z;
  row_title : string;
  row_link : string;
  row_summary : string;
  row_published : Z;
  row_source : string
}.

(** A row of [ChannelLastVideo] (and of its Yemen and newspaper twins). *)
Record last_video := mk_last_video {
  last_video_ids : option (list string);
  last_video_published : Z;
  updated_at : Z
}.

Abbreviation watermarks := (gmap string last_video).

(* ------------------------------------------------------------------ *)
(** ** Watermark store *)

(** The number of ids kept per source: [unique_ids[:5]]. *)
Definition WATERMARK_K : nat := 5.

(** The order-preserving de-duplication loop
    [seen = set(); for x in combined: if x not in seen: seen.add(x); unique.append(x)]. *)
Fixpoint dedup_from (seen : gset string) (l : list string) : list string :=
  match l with
  | [] => []
  | x :: r =>
      if bool_decide (x ∈ seen) then dedup_from seen r
      else x :: dedup_from ({[x]} ∪ seen) r
  end.

Definition dedup (l : list string) : list string := dedup_from ∅ l.

(** [final_ids = unique(new_ids + existing_ids)[:K]]. *)
Definition merge_ids (K : nat) (new_ids existing : list string) : list string :=
  firstn K (dedup (new_ids ++ existing)).

(** Reading a watermark, as done at the top of [fetch_all_youtube_channels]:
    [json.loads(record.last_video_ids)] when the record exists and its column
    is set, [None] otherwise (also when the JSON does not parse). *)
Definition get_recent_ids (wm : watermarks) (S : string) : option (list string) :=
  match wm !! S with
  | Some r => last_video_ids r
  | None => None
  end.

(** [existing_ids] in the update loop of [fetch_youtube_feeds]: the stored
    list, or [[]] when there is no record or the column does not parse. *)
Definition existing_ids (wm : watermarks) (S : string) : list string :=
  match get_recent_ids wm S with
  | Some ids => ids
  | None => []
  end.

(** The write of one watermark record (main.py 1148-1183, after
    [new_video_ids] has been computed): merge in front, de-duplicate,
    truncate to 5, and store the timestamp [t]; [now] is [datetime.now()]. *)
Definition record_new_ids (wm : watermarks) (S : string) (new_ids : list string)
    (t now : Z) : watermarks :=
  <[S := mk_last_video (Some (merge_ids WATERMARK_K new_ids (existing_ids wm S))) t now]> wm.

(* ------------------------------------------------------------------ *)
(** ** Fetch adapters *)

(** An entry of [info['entries']] as returned by yt-dlp with
    [extract_flat]; [None] is a falsy entry ([if entry:]).  [e_title] is
    [None] when the key is missing ([entry.get('title', 'No Title')]);
    [e_published] is the result of the upload-date / timestamp fallback
    chain, which parses external strings. *)
Record yt_entry := mk_yt_entry {
  e_id : option string;
  e_title : option string;
  e_published : Z
}.

(** An Atom entry of the RSS fallback; [r_id = None] when the [videoId]
    element is missing. *)
Record rss_entry := mk_rss_entry {
  r_id : option string;
  r_title : option string;
  r_link : option string;
  r_published : Z
}.

(** What [ydl.extract_info] produced: the listing (at most 50 entries,
    [playlistend = 50]), or an exception, in which case the RSS fallback
    either yields its entries or is not available (playlist, no [@handle]
    in the URL, HTTP status other than 200, or its own exception). *)
Inductive extract_result :=
  | Extracted (entries : list (option yt_entry))
  | ExtractError (rss : option (list rss_entry)).

(** The links gathered by the CSS selectors of [fetch_newspaper_articles]
    ([article_links], each [{'url', 'title'}]). *)
Record article_link := mk_article_link { al_url : string; al_title : string }.

(** Python's [len] and [s[:n]] on a [str] count code points; a Rocq
    [string] holds the UTF-8 bytes, so continuation bytes (10xxxxxx) are
    not counted. *)
Definition is_utf8_cont (c : Ascii.ascii) : bool :=
  N.eqb (N.land (Ascii.N_of_ascii c) 192) 128.

Fixpoint py_len (s : string) : nat :=
  match s with
  | EmptyString => 0
  | String c r => (if is_utf8_cont c then 0 else 1) + py_len r
  end.

Fixpoint py_prefix (n : nat) (s : string) : string :=
  match s with
  | EmptyString => EmptyString
  | String c r =>
      if is_utf8_cont c then String c (py_prefix n r)
      else match n with
           | O => EmptyString
           | S n' => String c (py_prefix n' r)
           end
  end.

Section Adapters.

(** External collaborators: the translation service, the md5-based
    article id and the clock. *)
Variable translate_to_arabic : string -> string.
Variable generate_article_id : string -> string.
Variable now : Z.

Definition yt_summary (channel_name : string) : string :=
  translate_to_arabic ("فيديو جديد من " +:+ channel_name).

Definition bad_title (t : string) : bool :=
  bool_decide (t = "") || bool_decide (t = "[Private video]")
  || bool_decide (t = "[Deleted video]").

(** The primary loop of [fetch_youtube_channel_videos] over the yt-dlp
    entries; [videos] is the list built so far. *)
Fixpoint scan_yt_entries (channel_name : string) (known : gset string)
    (entries : list (option yt_entry)) (videos : list video) : list video :=
  match entries with
  | [] => videos
  | None :: r => scan_yt_entries channel_name known r videos
  | Some e :: r =>
      match e_id e with
      | None => scan_yt_entries channel_name known r videos
      | Some vid =>
          if bool_decide (vid = "") then scan_yt_entries channel_name known r videos
          else if bool_decide (known ≠ ∅) && bool_decide (vid ∈ known) then videos
          else
            let t := default "No Title" (e_title e) in
            if bad_title t then scan_yt_entries channel_name known r videos
            else
              let videos' := app videos
                [mk_video vid (translate_to_arabic t)
                   ("https://www.youtube.com/watch?v=" +:+ vid)
                   ("https://img.youtube.com/vi/" +:+ vid +:+ "/maxresdefault.jpg")
                   channel_name (e_published e) (yt_summary channel_name)] in
              if bool_decide (known = ∅) && (5 <=? length videos')%nat then videos'
              else scan_yt_entries channel_name known r videos'
      end
  end.

(** The RSS fallback loop over [root.findall(...)[:50]]. *)
Fixpoint scan_rss_entries (channel_name : string) (known : gset string)
    (entries : list rss_entry) (videos : list video) : list video :=
  match entries with
  | [] => videos
  | e :: r =>
      match r_id e with
      | None => scan_rss_entries channel_name known r videos
      | Some vid =>
          if bool_decide (known ≠ ∅) && bool_decide (vid ∈ known) then videos
          else
            let videos' := app videos
              [mk_video vid (translate_to_arabic (default "No Title" (r_title e)))
                 (default ("https://www.youtube.com/watch?v=" +:+ vid) (r_link e))
                 ("https://img.youtube.com/vi/" +:+ vid +:+ "/maxresdefault.jpg")
                 channel_name (r_published e) (yt_summary channel_name)] in
            if bool_decide (known = ∅) && (5 <=? length videos')%nat then videos'
            else scan_rss_entries channel_name known r videos'
      end
  end.

(** [last_video_ids_set = set(last_video_ids) if last_video_ids else set()]. *)
Definition known_set (last_ids : option (list string)) : gset string :=
  match last_ids with
  | Some ids => list_to_set ids
  | None => ∅
  end.

Definition fetch_youtube_channel_videos (channel_name : string)
    (last_ids : option (list string)) (is_playlist : bool)
    (res : extract_result) : list video :=
  let known := known_set last_ids in
  match res with
  | Extracted entries => scan_yt_entries channel_name known entries []
  | ExtractError rss =>
      if is_playlist then []
      else match rss with
           | Some es => scan_rss_entries channel_name known (firstn 50 es) []
           | None => []
           end
  end.

Definition newspaper_summary (source_name : string) : string :=
  "مقال جديد من " +:+ source_name
  +:+ " يتناول آخر المستجدات الإخبارية. انقر لمتابعة التفاصيل والتحليلات الكاملة.".

(** The loop [for article_data in article_links[:50]] of
    [fetch_newspaper_articles]; [image_url] is the page's og:image. *)
Fixpoint scan_articles (source_name image : string) (known : gset string)
    (links : list article_link) (articles : list video) : list video :=
  match links with
  | [] => articles
  | a :: r =>
      let aid := generate_article_id (al_url a) in
      if bool_decide (known ≠ ∅) && bool_decide (aid ∈ known) then articles
      else if bool_decide (al_title a = "") || (py_len (al_title a) <? 10)%nat
      then scan_articles source_name image known r articles
      else
        let articles' := app articles
          [mk_video aid (py_prefix 500 (translate_to_arabic (al_title a)))
             (al_url a) image source_name now
             (translate_to_arabic (newspaper_summary source_name))] in
        if bool_decide (known = ∅) && (5 <=? length articles')%nat then articles'
        else scan_articles source_name image known r articles'
  end.

Definition fetch_newspaper_articles (source_name image : string)
    (last_ids : option (list string)) (links : list article_link) : list video :=
  scan_articles source_name image (known_set last_ids) (firstn 50 links) [].

End Adapters.

(* ------------------------------------------------------------------ *)
(** ** The region filter *)

(** [YEMEN_KEYWORDS]. *)
Definition YEMEN_KEYWORDS : list string := [
  "اليمن"; "يمني"; "يمنية"; "اليمني"; "اليمنية"; "اليمنيين";
  "المجلس الانتقالي"; "الانتقالي"; "المجلس الرئاسي";
  "درع الوطن"; "العمالقة"; "الحزام الأمني";
  "عدن"; "صنعاء"; "تعز"; "مأرب"; "الحديدة"; "شبوة"; "حضرموت"; "أبين"; "لحج"; "الضالع";
  "الحوثي"; "الحوثيين"; "أنصار الله";
  "التحالف العربي"; "عاصفة الحزم";
  "الشرعية"; "هادي"; "العليمي"].

(** Python's substring test [needle in hay]. *)
Fixpoint py_in (needle hay : string) : bool :=
  String.prefix needle hay ||
  match hay with
  | EmptyString => false
  | String _ r => py_in needle r
  end.

(** [str.lower()] on the ASCII letters; the keywords are Arabic, which
    [lower] leaves unchanged. *)
Definition lower_ascii (c : Ascii.ascii) : Ascii.ascii :=
  let n := Ascii.nat_of_ascii c in
  if (65 <=? n)%nat && (n <=? 90)%nat then Ascii.ascii_of_nat (n + 32) else c.

Fixpoint py_lower (s : string) : string :=
  match s with
  | EmptyString => EmptyString
  | String c r => String (lower_ascii c) (py_lower r)
  end.

Definition is_yemen_related (t : string) : bool :=
  existsb (fun k => py_in k t || py_in (py_lower k) (py_lower t)) YEMEN_KEYWORDS.

(* ------------------------------------------------------------------ *)
(** ** Combining the per-source results of one poll *)

(** [all_videos.sort(key=lambda x: x['published'], reverse=True)]: a
    stable sort, newest first, equal keys keeping their order. *)
Fixpoint insert_desc (x : video) (l : list video) : list video :=
  match l with
  | [] => [x]
  | y :: r => if (published x <=? published y)%Z then y :: insert_desc x r else x :: y :: r
  end.

Definition sort_published_desc (l : list video) : list video :=
  fold_left (fun acc x => insert_desc x acc) l [].

(** An adapter task as collected by [asyncio.gather(tasks...,
    return_exceptions=True)]: its list, or the exception it raised. *)
Inductive task_result :=
  | TaskOk (vs : list video)
  | TaskRaised.

Definition task_videos (r : task_result) : list video :=
  match r with
  | TaskOk vs => vs
  | TaskRaised => []
  end.

(** The tail of [fetch_all_youtube_channels] / [fetch_all_newspaper_sources]:
    skip exceptions, extend with the others, sort newest first. *)
Definition combine_results (results : list task_result) : list video :=
  sort_published_desc (concat (map task_videos results)).

(** The tail of [fetch_all_yemen_youtube_channels]: only the videos whose
    title passes [is_yemen_related] are kept, with a new summary. *)
Definition yemen_relabel (v : video) : video :=
  mk_video (video_id v) (title v) (link v) (image_url v) (source v) (published v)
    ("فيديو جديد من " +:+ source v +:+ " - أخبار اليمن").

Definition combine_yemen_results (results : list task_result) : list video :=
  sort_published_desc
    (concat (map (fun r => map yemen_relabel (filter (fun v => is_yemen_related (title v))
                                                     (task_videos r))) results)).

(** A source of [YOUTUBE_CHANNELS] and friends. *)
Record channel := mk_channel { ch_url : string; ch_name : string; ch_type : string }.

(** The outside world during one poll: for each source name, what the
    adapter task met ([None]: the task itself raised). *)
Definition yt_world := string -> option extract_result.
Definition news_world := string -> option (string * list article_link).

Definition run_youtube_task (translate_to_arabic : string -> string) (net : yt_world)
    (wm : watermarks) (ch : channel) : task_result :=
  match net (ch_name ch) with
  | Some res =>
      TaskOk (fetch_youtube_channel_videos translate_to_arabic (ch_name ch)
                (get_recent_ids wm (ch_name ch)) (bool_decide (ch_type ch = "playlist")) res)
  | None => TaskRaised
  end.

Definition fetch_all_youtube_channels (translate_to_arabic : string -> string)
    (channels : list channel) (net : yt_world) (wm : watermarks) : list video :=
  combine_results (map (run_youtube_task translate_to_arabic net wm) channels).

Definition fetch_all_yemen_youtube_channels (translate_to_arabic : string -> string)
    (channels : list channel) (net : yt_world) (wm : watermarks) : list video :=
  combine_yemen_results (map (run_youtube_task translate_to_arabic net wm) channels).

Definition run_newspaper_task (translate_to_arabic generate_article_id : string -> string)
    (now : Z) (net : news_world) (wm : watermarks) (src : channel) : task_result :=
  match net (ch_name src) with
  | Some (image, links) =>
      TaskOk (fetch_newspaper_articles translate_to_arabic generate_article_id now
                (ch_name src) image (get_recent_ids wm (ch_name src)) links)
  | None => TaskRaised
  end.

Definition fetch_all_newspaper_sources (translate_to_arabic generate_article_id : string -> string)
    (now : Z) (sources : list channel) (net : news_world) (wm : watermarks) : list video :=
  combine_results (map (run_newspaper_task translate_to_arabic generate_article_id now net wm) sources).

(* ------------------------------------------------------------------ *)
(** ** One poll cycle of an ingestion loop *)

(** [videos_by_channel]: a dict from source name to its videos, keys in
    first-appearance order, each list in the order of the combined batch. *)
Fixpoint group_insert (v : video) (groups : list (string * list video))
    : list (string * list video) :=
  match groups with
  | [] => [(source v, [v])]
  | (n, vs) :: r =>
      if bool_decide (n = source v) then (n, app vs [v]) :: r
      else (n, vs) :: group_insert v r
  end.

Definition group_by_source (videos : list video) : list (string * list video) :=
  fold_left (fun g v => group_insert v g) videos [].

(** The id SQLite gives a new row: one more than the largest rowid. *)
Definition next_row_id (rows : list news_row) : Z :=
  (1 + fold_right (fun r m => Z.max (row_id r) m) 0 rows)%Z.

Definition link_exists (rows : list news_row) (l : string) : bool :=
  existsb (fun r => bool_decide (row_link r = l)) rows.

(** A call [process_event_timeline(db, id, title, summary, news_type)]. *)
Record timeline_call := mk_timeline_call {
  tc_news_id : Z; tc_title : string; tc_summary : string; tc_news_type : string
}.

(** The state threaded through the loop [for video in videos:]: the
    table, [new_items_found] and the clustering calls made. *)
Record persist_state := mk_persist_state {
  ps_rows : list news_row;
  ps_found : list news_row;
  ps_calls : list timeline_call
}.

(** One iteration: skip a known link; otherwise add and commit the row;
    a commit that raises ([commit_fails]) is rolled back and the loop
    goes on; after a commit, clustering runs unless [first_run]. *)
Definition persist_one (first_run : bool) (news_type : string)
    (commit_fails : string -> bool) (s : persist_state) (v : video) : persist_state :=
  if link_exists (ps_rows s) (link v) then s
  else if commit_fails (link v) then s
  else
    let row := mk_news_row (next_row_id (ps_rows s)) (title v) (link v) (summary v)
                 (published v) (source v) in
    mk_persist_state (app (ps_rows s) [row]) (app (ps_found s) [row])
      (if first_run then ps_calls s
       else app (ps_calls s) [mk_timeline_call (row_id row) (row_title row) (row_summary row) news_type]).

Definition persist_all (first_run : bool) (news_type : string)
    (commit_fails : string -> bool) (s : persist_state) (videos : list video) : persist_state :=
  fold_left (persist_one first_run news_type commit_fails) videos s.

(** The watermark write for one source's batch [channel_videos]:
    [new_video_ids = [v['video_id'] for v in reversed(channel_videos)]],
    timestamp of [channel_videos[-1]]. *)
Definition update_source_watermark (now : Z) (wm : watermarks) (name : string)
    (channel_videos : list video) : watermarks :=
  match last channel_videos with
  | None => wm
  | Some most_recent_video =>
      record_new_ids wm name (map video_id (rev channel_videos))
        (published most_recent_video) now
  end.

(** [for channel_name, channel_videos in videos_by_channel.items(): ...]. *)
Definition update_watermarks (now : Z) (wm : watermarks)
    (groups : list (string * list video)) : watermarks :=
  fold_left (fun w g => update_source_watermark now w g.1 g.2) groups wm.

(** [videos_by_channel.get(channel_name, [])]. *)
Definition group_get (groups : list (string * list video)) (name : string) : list video :=
  match list_find (fun g => g.1 = name) groups with
  | Some (_, g) => g.2
  | None => []
  end.

(** The Yemen loop: [for channel in YEMEN_YOUTUBE_CHANNELS: ...]. *)
Definition update_watermarks_yemen (now : Z) (wm : watermarks) (channels : list channel)
    (groups : list (string * list video)) : watermarks :=
  fold_left (fun w ch => update_source_watermark now w (ch_name ch) (group_get groups (ch_name ch)))
    channels wm.

(** The stored state of one category: its news table and its watermark table. *)
Record category_state := mk_category_state {
  cs_news : list news_row;
  cs_wm : watermarks
}.

Record poll_result := mk_poll_result {
  pr_state : category_state;
  pr_broadcasts : list news_row;
  pr_timeline_calls : list timeline_call
}.

(** The body shared by the three loops once the combined batch is known:
    group, persist, update the watermarks ([update_wm]), broadcast every
    item of [new_items_found]. *)
Definition ingest (first_run : bool) (news_type : string) (commit_fails : string -> bool)
    (update_wm : watermarks -> list (string * list video) -> watermarks)
    (st : category_state) (videos : list video) : poll_result :=
  let groups := group_by_source videos in
  let s := persist_all first_run news_type commit_fails
             (mk_persist_state (cs_news st) [] []) videos in
  mk_poll_result (mk_category_state (ps_rows s) (update_wm (cs_wm st) groups))
    (ps_found s) (ps_calls s).

(** One iteration of [while True] in [fetch_youtube_feeds]. *)
Definition fetch_youtube_feeds_cycle (translate_to_arabic : string -> string)
    (channels : list channel) (net : yt_world) (commit_fails : string -> bool)
    (first_run : bool) (now : Z) (st : category_state) : poll_result :=
  ingest first_run "world" commit_fails (fun wm g => update_watermarks now wm g) st
    (fetch_all_youtube_channels translate_to_arabic channels net (cs_wm st)).

(** One iteration of [while True] in [fetch_yemen_youtube_feeds]. *)
Definition fetch_yemen_youtube_feeds_cycle (translate_to_arabic : string -> string)
    (channels : list channel) (net : yt_world) (commit_fails : string -> bool)
    (first_run : bool) (now : Z) (st : category_state) : poll_result :=
  ingest first_run "yemen" commit_fails (fun wm g => update_watermarks_yemen now wm channels g) st
    (fetch_all_yemen_youtube_channels translate_to_arabic channels net (cs_wm st)).

(** One iteration of [while True] in [fetch_newspaper_feeds]. *)
Definition fetch_newspaper_feeds_cycle (translate_to_arabic generate_article_id : string -> string)
    (sources : list channel) (net : news_world) (commit_fails : string -> bool)
    (first_run : bool) (now : Z) (st : category_state) : poll_result :=
  ingest first_run "newspaper" commit_fails (fun wm g => update_watermarks now wm g) st
    (fetch_all_newspaper_sources translate_to_arabic generate_article_id now sources net (cs_wm st)).

(* ------------------------------------------------------------------ *)
(** ** Event threads *)

(** A row of [EventThread]. *)
Record event_thread := mk_event_thread {
  et_id : Z;
  et_news_id : Z;
  et_related_news_id : Z;
  et_news_type : string;
  et_related_news_type : option string;
  et_thread_title : string;
  et_similarity_reason : string
}.

(** An element of [result["related_ids"]]: JSON strings ["world:12"] or
    bare numbers. *)
Inductive related_id :=
  | RelStr (s : string)
  | RelInt (z : Z).

(** What [find_related_news_with_ai] returned (its own failures already
    turned into the empty result). *)
Record ai_result := mk_ai_result {
  thread_title : string;
  related_ids : list related_id;
  reason : string
}.

(** The arguments of a call to [find_related_news_with_ai]: the current
    title and summary, the ids of [all_news_combined] in order, the type. *)
Record ai_request := mk_ai_request {
  req_title : string;
  req_summary : string;
  req_candidates : list string;
  req_news_type : string
}.

(** The stored event threads and the requests sent to the reasoning
    service so far. *)
Record timeline_state := mk_timeline_state {
  ts_threads : list event_thread;
  ts_ai_calls : list ai_request
}.

(** [s.split(':', 1)] when [':' in s]. *)
Fixpoint split_first_colon (s : string) : option (string * string) :=
  match s with
  | EmptyString => None
  | String c r =>
      if Ascii.eqb c (Ascii.ascii_of_nat 58) then Some (EmptyString, r)
      else match split_first_colon r with
           | Some (a, b) => Some (String c a, b)
           | None => None
           end
  end.

(** [order_by(desc(published))]: newest first, ties in table order. *)
Fixpoint insert_row_desc (x : news_row) (l : list news_row) : list news_row :=
  match l with
  | [] => [x]
  | y :: r => if (row_published x <=? row_published y)%Z then y :: insert_row_desc x r
              else x :: y :: r
  end.

Definition rows_newest_first (rows : list news_row) : list news_row :=
  fold_left (fun acc x => insert_row_desc x acc) rows [].

(** An element of [all_news_combined]: its ["id"], title and publish time. *)
Record candidate := mk_candidate { cand_id : string; cand_published : Z }.

Fixpoint insert_cand_desc (x : candidate) (l : list candidate) : list candidate :=
  match l with
  | [] => [x]
  | y :: r => if (cand_published x <=? cand_published y)%Z then y :: insert_cand_desc x r
              else x :: y :: r
  end.

Definition cands_newest_first (l : list candidate) : list candidate :=
  fold_left (fun acc x => insert_cand_desc x acc) l [].

Section Timeline.

(** Python's [int(s)] on a string ([None] when it raises [ValueError]),
    and the reasoning service. *)
Variable py_int : string -> option Z.
Variable find_related_news_with_ai : ai_request -> ai_result.

Definition row_candidates (kind news_type : string) (news_id : Z)
    (rows : list news_row) : list candidate :=
  map (fun n => mk_candidate (kind +:+ ":" +:+ pretty (row_id n)) (row_published n))
    (filter (fun n => ~ (news_type = kind /\ row_id n = news_id))
       (firstn 150 (rows_newest_first rows))).

(** The parse of one related id: [(related_type, related_id)], or [None]
    when [int(...)] raises (the loop then [continue]s). *)
Definition parse_related (news_type : string) (rid : related_id) : option (string * Z) :=
  match rid with
  | RelStr s =>
      match split_first_colon s with
      | Some (ty, v) => option_map (fun z => (ty, z)) (py_int v)
      | None => option_map (fun z => (news_type, z)) (py_int s)
      end
  | RelInt z => Some (news_type, z)
  end.

Definition next_thread_id (rows : list event_thread) : Z :=
  (1 + fold_right (fun r m => Z.max (et_id r) m) 0 rows)%Z.

(** The loop over [result["related_ids"]]: the [existing] query sees only
    committed rows ([autoflush=False]); new rows are pending until the
    final [db.commit()]. *)
Definition add_threads (committed : list event_thread) (news_id : Z) (news_type : string)
    (res : ai_result) : list event_thread :=
  fold_left (fun pending rid =>
    match parse_related news_type rid with
    | None => pending
    | Some (related_type, related_id) =>
        if existsb (fun t => bool_decide (et_news_id t = news_id
                                          /\ et_related_news_id t = related_id
                                          /\ et_news_type t = news_type
                                          /\ et_related_news_type t = Some related_type))
             committed
        then pending
        else app pending [mk_event_thread (next_thread_id (app committed pending)) news_id
                            related_id news_type (Some related_type)
                            (thread_title res) (reason res)]
    end) (related_ids res) [].

(** [process_event_timeline(db, news_id, news_title, news_summary, news_type)]. *)
Definition process_event_timeline (world_rows newspaper_rows : list news_row)
    (st : timeline_state) (news_id : Z) (news_title news_summary news_type : string)
    : timeline_state :=
  if bool_decide (news_type = "yemen") then st
  else
    let all_news_combined :=
      app (row_candidates "world" news_type news_id world_rows)
        (row_candidates "newspaper" news_type news_id newspaper_rows) in
    match all_news_combined with
    | [] => st
    | _ =>
      let req := mk_ai_request news_title news_summary
                   (map cand_id (cands_newest_first all_news_combined)) news_type in
      let res := find_related_news_with_ai req in
      let calls := app (ts_ai_calls st) [req] in
      if bool_decide (thread_title res <> "") && bool_decide (related_ids res <> []) then
        mk_timeline_state (app (ts_threads st) (add_threads (ts_threads st) news_id news_type res)) calls
      else mk_timeline_state (ts_threads st) calls
    end.

End Timeline.

(* ------------------------------------------------------------------ *)
(** ** The event-timeline endpoint *)

(** An element of [related_news] in the response. *)
Record timeline_item := mk_timeline_item {
  ti_id : Z;
  ti_title : string;
  ti_link : string;
  ti_summary : string;
  ti_published : Z;
  ti_source : string;
  ti_news_type : string
}.

Record timeline_response := mk_timeline_response {
  resp_thread_title : string;
  resp_related_news : list timeline_item;
  resp_reason : string;
  resp_current_news_id : Z
}.

(** [related_items.add(...)] on a Python [set]; the set is iterated in
    insertion order here (CPython's order is by hash), which only matters
    for items with equal publish times after the final sort. *)
Definition set_add (p : Z * string) (s : list (Z * string)) : list (Z * string) :=
  if bool_decide (p ∈ s) then s else app s [p].

(** [thread.related_news_type or thread.news_type]. *)
Definition related_type_of (t : event_thread) : string :=
  match et_related_news_type t with
  | Some s => if bool_decide (s = "") then et_news_type t else s
  | None => et_news_type t
  end.

(** [related_news.sort(key=lambda x: x['published'])]: stable, oldest
    first; [str(datetime)] in its fixed format orders as the timestamp. *)
Fixpoint insert_item_asc (x : timeline_item) (l : list timeline_item) : list timeline_item :=
  match l with
  | [] => [x]
  | y :: r => if (ti_published y <=? ti_published x)%Z then y :: insert_item_asc x r
              else x :: y :: r
  end.

Definition items_oldest_first (l : list timeline_item) : list timeline_item :=
  fold_left (fun acc x => insert_item_asc x acc) l [].

(** [db.query(T).filter(T.id == rid).first()]. *)
Fixpoint find_row (rows : list news_row) (rid : Z) : option news_row :=
  match rows with
  | [] => None
  | r :: rs => if bool_decide (row_id r = rid) then Some r else find_row rs rid
  end.

Definition lookup_related (world_rows yemen_rows newspaper_rows : list news_row)
    (p : Z * string) : option timeline_item :=
  let '(rid, rtype) := p in
  let table := if bool_decide (rtype = "world") then world_rows
               else if bool_decide (rtype = "yemen") then yemen_rows
               else newspaper_rows in
  option_map (fun n => mk_timeline_item (row_id n) (row_title n) (row_link n) (row_summary n)
                         (row_published n) (row_source n) rtype)
    (find_row table rid).

(** The thread rows of [get_event_timeline]: direct ones and reverse ones. *)
Definition forward_threads (threads : list event_thread) (news_type : string) (news_id : Z) :=
  filter (fun t => et_news_id t = news_id /\ et_news_type t = news_type) threads.

Definition reverse_threads (threads : list event_thread) (news_type : string) (news_id : Z) :=
  filter (fun t => et_related_news_id t = news_id
                   /\ (et_related_news_type t = Some news_type
                       \/ (et_related_news_type t = None /\ et_news_type t = news_type)))
    threads.

(** The gathered thread, before sorting: [related_news]. *)
Definition gather_related (world_rows yemen_rows newspaper_rows : list news_row)
    (threads : list event_thread) (news_type : string) (news_id : Z) : list timeline_item :=
  let s1 := fold_left (fun s t => set_add (et_related_news_id t, related_type_of t) s)
              (forward_threads threads news_type news_id) [] in
  let s2 := fold_left (fun s t => set_add (et_news_id t, et_news_type t) s)
              (reverse_threads threads news_type news_id) s1 in
  omap (lookup_related world_rows yemen_rows newspaper_rows) s2.

Definition get_event_timeline (world_rows yemen_rows newspaper_rows : list news_row)
    (threads : list event_thread) (news_type : string) (news_id : Z) : timeline_response :=
  let fw := forward_threads threads news_type news_id in
  let rv := reverse_threads threads news_type news_id in
  let title1 := fold_left (fun acc t => if bool_decide (et_thread_title t = "") then acc
                                         else et_thread_title t) fw "" in
  let reason1 := fold_left (fun acc t => if bool_decide (et_similarity_reason t = "") then acc
                                          else et_similarity_reason t) fw "" in
  let title2 := fold_left (fun acc t => if bool_decide (et_thread_title t <> "")
                                           && bool_decide (acc = "") then et_thread_title t
                                        else acc) rv title1 in
  let reason2 := fold_left (fun acc t => if bool_decide (et_similarity_reason t <> "")
                                            && bool_decide (acc = "") then et_similarity_reason t
                                         else acc) rv reason1 in
  if bool_decide (fw = [] /\ rv = []) then mk_timeline_response "" [] "" news_id
  else mk_timeline_response title2
         (items_oldest_first (gather_related world_rows yemen_rows newspaper_rows threads news_type news_id))
         reason2 news_id.

(** The plausibility filter as the specification words it (section 4.5),
    to be compared with [get_event_timeline]: stop-word-stripped token
    Jaccard similarity between titles, thresholds 15% (best) and 10%
    (average), skipped when it would remove more than half the thread.
    Tokens are the lower-cased, space-separated words of the title. *)
Definition SPEC_STOP_WORDS : list string := ["the"; "a"; "an"; "of"; "in"; "on"; "and"; "to"; "for"].

Fixpoint split_spaces_aux (cur : string) (s : string) : list string :=
  match s with
  | EmptyString => [cur]
  | String c r =>
      if Ascii.eqb c (Ascii.ascii_of_nat 32) then cur :: split_spaces_aux EmptyString r
      else split_spaces_aux (cur +:+ String c EmptyString) r
  end.

Definition spec_tokens (t : string) : list string :=
  dedup (filter (fun w => w <> "" /\ w ∉ SPEC_STOP_WORDS) (split_spaces_aux "" (py_lower t))).

Definition spec_jaccard (a b : string) : Q :=
  let ta := spec_tokens a in
  let tb := spec_tokens b in
  let inter := length (filter (fun w => w ∈ tb) ta) in
  let union := (length ta + length tb - inter)%nat in
  if (union =? 0)%nat then 0%Q else Qmake (Z.of_nat inter) (Pos.of_nat union).

Definition spec_low_similarity (others : list string) (t : string) : bool :=
  let sims := map (spec_jaccard t) others in
  let best := fold_right (fun a b => if Qle_bool a b then b else a) 0%Q sims in
  let avg := (fold_right Qplus 0%Q sims / inject_Z (Z.of_nat (length others)))%Q in
  negb (Qle_bool (15 # 100) best) && negb (Qle_bool (10 # 100) avg).

(** The items kept: each is compared with all the other positions. *)
Fixpoint spec_keep (before after : list timeline_item) : list timeline_item :=
  match after with
  | [] => []
  | it :: rest =>
      let others := map ti_title (app before rest) in
      (if spec_low_similarity others (ti_title it) then [] else [it])
      ++ spec_keep (app before [it]) rest
  end.

Definition spec_plausibility_filter (items : list timeline_item) : list timeline_item :=
  let keep := spec_keep [] items in
  if (length items <? 2 * (length items - length keep))%nat then items else keep.

(* ------------------------------------------------------------------ *)
(** ** Vocabulary of the statements *)

(** The entries of a sequence before the first one that satisfies [stop]. *)
Fixpoint prefix_before {A} (stop : A -> bool) (l : list A) : list A :=
  match l with
  | [] => []
  | x :: r => if stop x then [] else x :: prefix_before stop r
  end.

(** The id of a yt-dlp entry, when it has a non-empty one. *)
Definition yt_entry_id (oe : option yt_entry) : option string :=
  match oe with
  | Some e => match e_id e with
              | Some vid => if bool_decide (vid = "") then None else Some vid
              | None => None
              end
  | None => None
  end.

(** A yt-dlp entry whose id is in the watermark list [ids]. *)
Definition yt_known (ids : list string) (oe : option yt_entry) : bool :=
  match yt_entry_id oe with
  | Some vid => bool_decide (vid ∈ ids)
  | None => false
  end.

(** The id of an entry the primary loop keeps (its title is usable). *)
Definition yt_kept_id (oe : option yt_entry) : option string :=
  match oe with
  | Some e => if bad_title (default "No Title" (e_title e)) then None else yt_entry_id oe
  | None => None
  end.

Definition rss_known (ids : list string) (e : rss_entry) : bool :=
  match r_id e with
  | Some vid => bool_decide (vid ∈ ids)
  | None => false
  end.

Definition article_known (generate_article_id : string -> string) (ids : list string)
    (a : article_link) : bool :=
  bool_decide (generate_article_id (al_url a) ∈ ids).

Definition article_kept_id (generate_article_id : string -> string) (a : article_link)
    : option string :=
  if bool_decide (al_title a = "") || (py_len (al_title a) <? 10)%nat then None
  else Some (generate_article_id (al_url a)).

(* ------------------------------------------------------------------ *)
(** ** Translation *)

(** The letters of [translate_to_arabic]'s test
    [any(char in text for char in 'أبتثجحخدذرزسشصضطظعغفقكلمنهوي')]; a code
    point occurs in a UTF-8 string exactly when its bytes do. *)
Definition ARABIC_LETTERS : list string :=
  ["أ"; "ب"; "ت"; "ث"; "ج"; "ح"; "خ"; "د"; "ذ"; "ر"; "ز"; "س"; "ش"; "ص";
   "ض"; "ط"; "ظ"; "ع"; "غ"; "ف"; "ق"; "ك"; "ل"; "م"; "ن"; "ه"; "و"; "ي"].

Definition has_arabic_letter (text : string) : bool :=
  existsb (fun c => py_in c text) ARABIC_LETTERS.

(** [translate_to_arabic(text)]; [google_translate] is the HTTP call: the
    joined segments, or [None] when the status is not 200 or the request
    or the JSON decoding raises. *)
Definition translate_to_arabic_impl (google_translate : string -> option string)
    (text : string) : string :=
  if bool_decide (text = "") || has_arabic_letter text then text
  else match google_translate text with
       | Some translated_text => translated_text
       | None => text
       end.

(* ------------------------------------------------------------------ *)
(** ** The WebSocket manager *)

Section Connections.

(** A WebSocket; [in] and [remove] compare by identity. *)
Context {W : Type} `{EqDecision W}.

(** [list.remove(x)]: drop the first occurrence. *)
Fixpoint list_remove (w : W) (l : list W) : list W :=
  match l with
  | [] => []
  | x :: r => if bool_decide (x = w) then r else x :: list_remove w r
  end.

(** [ConnectionManager.connect] (after [accept]). *)
Definition connect (active_connections : list W) (w : W) : list W :=
  app active_connections [w].

(** [ConnectionManager.disconnect]. *)
Definition disconnect (active_connections : list W) (w : W) : list W :=
  if bool_decide (w ∈ active_connections) then list_remove w active_connections
  else active_connections.

(** [ConnectionManager.broadcast]: the connections the message reached;
    [send_fails] says whose [send_text] raises (swallowed). *)
Definition broadcast (send_fails : W -> bool) (active_connections : list W) : list W :=
  filter (fun c => negb (send_fails c) = true) active_connections.

End Connections.

(** What [websocket_endpoint] meets while it waits: a text message, a
    25 s timeout followed by a ping that succeeds or raises, the client
    disconnecting ([WebSocketDisconnect]) or another exception. *)
Inductive ws_event :=
  | WsText (m : string)
  | WsTimeout (ping_ok : bool)
  | WsDisconnect
  | WsError.

(** The [while True] loop: the manager's list and whether the endpoint is
    still running.  A failed ping [break]s out of the loop, and the
    function then returns without reaching either [except] clause. *)
Fixpoint websocket_loop {W} `{EqDecision W} (w : W) (conns : list W)
    (evs : list ws_event) : list W * bool :=
  match evs with
  | [] => (conns, true)
  | WsText _ :: r => websocket_loop w conns r
  | WsTimeout true :: r => websocket_loop w conns r
  | WsTimeout false :: _ => (conns, false)
  | WsDisconnect :: _ => (disconnect conns w, false)
  | WsError :: _ => (disconnect conns w, false)
  end.

Definition websocket_endpoint {W} `{EqDecision W} (conns : list W) (w : W)
    (evs : list ws_event) : list W * bool :=
  websocket_loop w (connect conns w) evs.

(* ------------------------------------------------------------------ *)
(** ** The paginated listings *)

(** [order_by(desc(created_at), desc(id))]: [listed_before a b] when [a]
    is listed before [b]; SQLite sorts NULL below every value, so rows
    without [created_at] (rows older than its column) come last. *)
Definition listed_before (created_at : news_row -> option Z) (a b : news_row) : bool :=
  match created_at a, created_at b with
  | Some x, Some y => (y <? x)%Z || ((x =? y)%Z && (row_id b <? row_id a)%Z)
  | Some _, None => true
  | None, Some _ => false
  | None, None => (row_id b <? row_id a)%Z
  end.

Fixpoint insert_listed (created_at : news_row -> option Z) (x : news_row)
    (l : list news_row) : list news_row :=
  match l with
  | [] => [x]
  | y :: r => if listed_before created_at x y then x :: y :: r
              else y :: insert_listed created_at x r
  end.

Definition listing (created_at : news_row -> option Z) (rows : list news_row) : list news_row :=
  fold_left (fun acc x => insert_listed created_at x acc) rows [].

Record news_page := mk_news_page {
  np_items : list news_row;
  np_total : Z;
  np_page : Z;
  np_limit : Z
}.

(** The range of a 64-bit SQLite INTEGER: Python's [sqlite3] raises
    [OverflowError] when it binds an [int] outside it. *)
Definition INT64_MIN : Z := (- 2 ^ 63)%Z.
Definition INT64_MAX : Z := (2 ^ 63 - 1)%Z.

Definition fits_int64 (z : Z) : bool := (INT64_MIN <=? z)%Z && (z <=? INT64_MAX)%Z.

(** [get_news(page, limit)] ([get_yemen_news] and [get_newspaper_news]
    run the same body on their tables): [skip = (page - 1) * limit], then
    [.offset(skip).limit(limit)].  The query binds both values as
    parameters; [None] is the request failing (HTTP 500) because one of
    them does not fit in 64 bits.  SQLite runs a negative OFFSET as 0 and
    a negative LIMIT as no limit. *)
Definition get_news (created_at : news_row -> option Z) (rows : list news_row)
    (page limit : Z) : option news_page :=
  let skip := ((page - 1) * limit)%Z in
  if fits_int64 limit && fits_int64 skip then
    let after := skipn (Z.to_nat skip) (listing created_at rows) in
    Some (mk_news_page (if (limit <? 0)%Z then after else firstn (Z.to_nat limit) after)
            (Z.of_nat (length rows)) page limit)
  else None.

(** The items of a response; a failed request shows none. *)
Definition page_items (r : option news_page) : list news_row :=
  match r with
  | Some pg => np_items pg
  | None => []
  end.

(* ------------------------------------------------------------------ *)
(** ** Sample inputs *)

Definition sample_row : news_row :=
  mk_news_row 1 "Talks resume" "https://www.youtube.com/watch?v=v1" "s" 0 "Reuters".

Definition sample_video : video :=
  mk_video "v1" "Talks resume" "https://www.youtube.com/watch?v=v1" "i" "Reuters" 0 "s".

Definition sample_bad_channel : channel :=
  mk_channel "https://www.youtube.com/@Down/videos" "Down" "channel".

Definition sample_good_channel : channel :=
  mk_channel "https://www.youtube.com/@Reuters/videos" "Reuters" "channel".

(** A poll in which the task of "Down" raises and "Reuters" lists one video. *)
Definition sample_yt_net : yt_world :=
  fun n => if bool_decide (n = "Down") then None
           else Some (Extracted [Some (mk_yt_entry (Some "v1") (Some "Talks resume") 0)]).

Definition sample_news_net : news_world :=
  fun n => if bool_decide (n = "Down") then None
           else Some ("i", [mk_article_link "https://example.com/a1" "Ceasefire talks resume"]).

(** A Yemen channel "ch" whose watermark holds ["k"] and whose listing
    shows one new video, not about Yemen, above "k". *)
Definition sample_yemen_channel : channel :=
  mk_channel "https://www.youtube.com/@ch/videos" "ch" "channel".

Definition sample_yemen_state : category_state :=
  mk_category_state [] (<["ch" := mk_last_video (Some ["k"]) 0 0]> ∅).

Definition sample_off_topic_net : yt_world :=
  fun _ => Some (Extracted [Some (mk_yt_entry (Some "n1") (Some "Global markets rally") 1);
                            Some (mk_yt_entry (Some "k") (Some "Old") 0)]).

(** A channel with no watermark listing two videos, newest first. *)
Definition sample_two_videos_net : yt_world :=
  fun _ => Some (Extracted [Some (mk_yt_entry (Some "n2") (Some "Second report") 2);
                            Some (mk_yt_entry (Some "n1") (Some "First report") 1)]).

(** A thread of five stored world items linked to item 100: four about
    the same talks, one unrelated. *)
Definition sample_thread_rows : list news_row :=
  [mk_news_row 100 "Gaza ceasefire talks" "l100" "s" 10 "Reuters";
   mk_news_row 1 "Gaza ceasefire talks resume" "l1" "s" 1 "Reuters";
   mk_news_row 2 "Gaza ceasefire talks resume in Cairo" "l2" "s" 2 "BBC";
   mk_news_row 3 "Ceasefire talks resume for Gaza" "l3" "s" 3 "CNN";
   mk_news_row 4 "Gaza ceasefire talks resume again" "l4" "s" 4 "DW";
   mk_news_row 5 "Global markets rally" "l5" "s" 5 "CNBC"].

Definition sample_threads : list event_thread :=
  map (fun rid => mk_event_thread rid 100 rid "world" (Some "world") "Gaza talks" "same talks")
    [1; 2; 3; 4; 5]%Z.

(** A watermark table whose every id list is free of repeats and holds at
    most [WATERMARK_K] ids. *)
Definition wm_ok (wm : watermarks) : Prop :=
  map_Forall (fun _ lv => match last_video_ids lv with
                          | Some ids => NoDup ids /\ (length ids <= WATERMARK_K)%nat
                          | None => True
                          end) wm.

(** The key of the [existing] query in [process_event_timeline]. *)
Definition thread_key (t : event_thread) : Z * Z * string * option string :=
  (et_news_id t, et_related_news_id t, et_news_type t, et_related_news_type t).

(** The events after which the [while True] loop goes round again. *)
Definition ws_continues (e : ws_event) : bool :=
  match e with
  | WsText _ => true
  | WsTimeout ok => ok
  | WsDisconnect | WsError => false
  end.

(** [a] is listed no later than [b]: the order does not put [b] first. *)
Definition listed_no_later (created_at : news_row -> option Z) (a b : news_row) : Prop :=
  listed_before created_at b a = false.

(** A batch of three videos whose middle commit raises, after one stored
    row. *)
Definition sample_va : video :=
  mk_video "va" "First" "https://www.youtube.com/watch?v=va" "i" "Reuters" 3 "s".

Definition sample_vb : video :=
  mk_video "vb" "Second" "https://www.youtube.com/watch?v=vb" "i" "Reuters" 2 "s".

Definition sample_vc : video :=
  mk_video "vc" "Third" "https://www.youtube.com/watch?v=vc" "i" "Reuters" 1 "s".

Definition sample_commit_fails (l : string) : bool :=
  bool_decide (l = "https://www.youtube.com/watch?v=vb").

Definition sample_store : persist_state := mk_persist_state [sample_row] [] [].

(** The state after the first video of the batch was committed. *)
Definition sample_after_va : persist_state :=
  persist_all false "world" sample_commit_fails sample_store [sample_va].

(** A stored watermark of five ids, and a batch that overlaps it. *)
Definition sample_full_wm : watermarks :=
  {[ "Reuters" := mk_last_video (Some ["n3"; "n4"; "n5"; "n6"; "n7"]) 5 5 ]}.

Definition sample_overlap_batch : list video :=
  [mk_video "n1" "New" "https://www.youtube.com/watch?v=n1" "i" "Reuters" 9 "s";
   mk_video "n3" "Known" "https://www.youtube.com/watch?v=n3" "i" "Reuters" 5 "s"].

(* ================================================================== *)
(** * Properties *)

Local Open Scope list_scope.

(** ** The merge rule of the watermark store *)

Lemma dedup_from_app (seen : gset string) (a b : list string) :
  dedup_from seen (a ++ b) = dedup_from seen a ++ dedup_from (seen ∪ list_to_set a) b.
Proof.
  revert seen. induction a as [|x a IH]; intros seen; simpl.
  - by rewrite union_empty_r_L.
  - case_bool_decide as Hx.
    + rewrite IH. do 2 f_equal. set_solver.
    + rewrite IH. simpl. do 3 f_equal. set_solver.
Qed.

Lemma dedup_from_union_filter (seen : gset string) (a b : list string) :
  dedup_from (seen ∪ list_to_set a) b = filter (fun x => x ∉ a) (dedup_from seen b).
Proof.
  revert seen. induction b as [|x b IH]; intros seen; simpl; [done|].
  destruct (decide (x ∈ seen)) as [Hs|Hs].
  - rewrite (bool_decide_eq_true_2 (x ∈ seen ∪ list_to_set a)) by set_solver.
    rewrite (bool_decide_eq_true_2 (x ∈ seen)) by done. apply IH.
  - rewrite (bool_decide_eq_false_2 (x ∈ seen)) by done.
    destruct (decide (x ∈ a)) as [Ha|Ha].
    + rewrite (bool_decide_eq_true_2 (x ∈ seen ∪ list_to_set a)) by set_solver.
      rewrite filter_cons_False by (intros Hn; by apply Hn).
      rewrite <- IH. f_equal. set_solver.
    + rewrite (bool_decide_eq_false_2 (x ∈ seen ∪ list_to_set a)) by set_solver.
      rewrite filter_cons_True by done. f_equal.
      rewrite <- IH. f_equal. set_solver.
Qed.

Lemma dedup_app (a b : list string) :
  dedup (a ++ b) = dedup a ++ filter (fun x => x ∉ a) (dedup b).
Proof.
  unfold dedup. rewrite dedup_from_app. f_equal.
  rewrite <- dedup_from_union_filter. f_equal; set_solver.
Qed.

(** [C1] Watermark merge law: writing the new ids (newest first) and
    reading the watermark back gives the new ids, de-duplicated keeping
    first occurrences, followed by the previously stored ids that are not
    among them, truncated to K; for any K, and for the code's K = 5. *)
Theorem watermark_merge_law :
  (forall (K : nat) (new_ids prior : list string),
     merge_ids K new_ids prior
     = firstn K (dedup new_ids ++ filter (fun x => x ∉ new_ids) (dedup prior))) /\
  (forall (wm : watermarks) (S : string) (new_ids : list string) (t now : Z),
     get_recent_ids (record_new_ids wm S new_ids t now) S
     = Some (firstn 5 (dedup new_ids
                       ++ filter (fun x => x ∉ new_ids) (dedup (existing_ids wm S))))).
Proof.
  split.
  - intros K new_ids prior. unfold merge_ids. by rewrite dedup_app.
  - intros wm S new_ids t now. unfold get_recent_ids, record_new_ids.
    rewrite lookup_insert_eq. simpl. unfold merge_ids. by rewrite dedup_app.
Qed.

(** ** The stopping rule of the adapters *)

Lemma known_set_nonempty (ids : list string) : ids <> [] -> known_set (Some ids) ≠ ∅.
Proof.
  destruct ids as [|x ids]; [done|]. intros _ Hemp. simpl in Hemp. set_solver.
Qed.

Lemma elem_of_known_set (ids : list string) (x : string) : x ∈ known_set (Some ids) <-> x ∈ ids.
Proof. simpl. apply elem_of_list_to_set. Qed.

Lemma prefix_before_cons {A} (stop : A -> bool) (x : A) (l : list A) :
  prefix_before stop (x :: l) = if stop x then [] else x :: prefix_before stop l.
Proof. reflexivity. Qed.

Lemma omap_cons_eq {A B} (f : A -> option B) (x : A) (l : list A) :
  omap f (x :: l) = match f x with Some y => y :: omap f l | None => omap f l end.
Proof. reflexivity. Qed.

Lemma map_video_id_snoc (acc : list video) (v : video) :
  map video_id (app acc [v]) = map video_id acc ++ [video_id v].
Proof. by rewrite map_app. Qed.

Lemma yt_known_some (ids : list string) (e : yt_entry) :
  yt_known ids (Some e) =
  match e_id e with
  | Some vid => if bool_decide (vid = "") then false else bool_decide (vid ∈ ids)
  | None => false
  end.
Proof. unfold yt_known, yt_entry_id. destruct (e_id e) as [vid|]; [|done]. by case_bool_decide. Qed.

Lemma yt_kept_id_some (e : yt_entry) :
  yt_kept_id (Some e) =
  if bad_title (default "No Title" (e_title e)) then None
  else match e_id e with
       | Some vid => if bool_decide (vid = "") then None else Some vid
       | None => None
       end.
Proof. reflexivity. Qed.

Lemma scan_yt_entries_watermark tr name ids entries acc :
  ids <> [] ->
  map video_id (scan_yt_entries tr name (known_set (Some ids)) entries acc)
  = map video_id acc ++ omap yt_kept_id (prefix_before (yt_known ids) entries).
Proof.
  intros Hne. pose proof (known_set_nonempty ids Hne) as Hk.
  revert acc. induction entries as [|oe entries IH]; intros acc.
  - simpl. by rewrite app_nil_r.
  - rewrite prefix_before_cons. cbn [scan_yt_entries].
    destruct oe as [e|].
    2:{ change (yt_known ids None) with false. cbv iota.
        rewrite omap_cons_eq. apply IH. }
    rewrite yt_known_some.
    destruct (e_id e) as [vid|] eqn:Hid; cbv iota.
    2:{ rewrite omap_cons_eq, yt_kept_id_some, Hid.
        destruct (bad_title (default "No Title" (e_title e))); apply IH. }
    destruct (decide (vid = "")) as [Hv|Hv].
    { rewrite (bool_decide_eq_true_2 (vid = "")) by done. cbv iota.
      rewrite omap_cons_eq, yt_kept_id_some, Hid.
      rewrite (bool_decide_eq_true_2 (vid = "")) by done.
      destruct (bad_title (default "No Title" (e_title e))); apply IH. }
    rewrite (bool_decide_eq_false_2 (vid = "")) by done. cbv iota.
    rewrite (bool_decide_eq_true_2 (known_set (Some ids) ≠ ∅)) by done. simpl andb.
    destruct (decide (vid ∈ ids)) as [Hin|Hin].
    + rewrite (bool_decide_eq_true_2 (vid ∈ known_set (Some ids))) by (by apply elem_of_known_set).
      rewrite (bool_decide_eq_true_2 (vid ∈ ids)) by done. cbv iota. simpl. by rewrite app_nil_r.
    + rewrite (bool_decide_eq_false_2 (vid ∈ known_set (Some ids)))
        by (by rewrite elem_of_known_set).
      rewrite (bool_decide_eq_false_2 (vid ∈ ids)) by done. cbv iota.
      rewrite omap_cons_eq, yt_kept_id_some, Hid.
      rewrite (bool_decide_eq_false_2 (vid = "")) by done.
      destruct (bad_title (default "No Title" (e_title e))); cbv iota; [apply IH|].
      rewrite (bool_decide_eq_false_2 (known_set (Some ids) = ∅)) by done. simpl andb.
      cbv zeta iota. rewrite IH, map_video_id_snoc. by rewrite <- app_assoc.
Qed.

Lemma scan_rss_entries_watermark tr name ids entries acc :
  ids <> [] ->
  map video_id (scan_rss_entries tr name (known_set (Some ids)) entries acc)
  = map video_id acc ++ omap r_id (prefix_before (rss_known ids) entries).
Proof.
  intros Hne. pose proof (known_set_nonempty ids Hne) as Hk.
  revert acc. induction entries as [|e entries IH]; intros acc.
  - simpl. by rewrite app_nil_r.
  - rewrite prefix_before_cons. cbn [scan_rss_entries].
    unfold rss_known at 1.
    destruct (r_id e) as [vid|] eqn:Hid; [|rewrite omap_cons_eq, Hid; apply IH].
    rewrite (bool_decide_eq_true_2 (known_set (Some ids) ≠ ∅)) by done. simpl andb.
    destruct (decide (vid ∈ ids)) as [Hin|Hin].
    + rewrite (bool_decide_eq_true_2 (vid ∈ known_set (Some ids))) by (by apply elem_of_known_set).
      rewrite (bool_decide_eq_true_2 (vid ∈ ids)) by done. simpl. by rewrite app_nil_r.
    + rewrite (bool_decide_eq_false_2 (vid ∈ known_set (Some ids)))
        by (by rewrite elem_of_known_set).
      rewrite (bool_decide_eq_false_2 (vid ∈ ids)) by done.
      rewrite omap_cons_eq, Hid.
      rewrite (bool_decide_eq_false_2 (known_set (Some ids) = ∅)) by done. simpl andb.
      cbv zeta iota. rewrite IH, map_video_id_snoc. by rewrite <- app_assoc.
Qed.

Lemma scan_articles_watermark tr gid now name image ids links acc :
  ids <> [] ->
  map video_id (scan_articles tr gid now name image (known_set (Some ids)) links acc)
  = map video_id acc ++ omap (article_kept_id gid) (prefix_before (article_known gid ids) links).
Proof.
  intros Hne. pose proof (known_set_nonempty ids Hne) as Hk.
  revert acc. induction links as [|a links IH]; intros acc.
  - simpl. by rewrite app_nil_r.
  - rewrite prefix_before_cons. cbn [scan_articles]. cbv zeta.
    unfold article_known at 1.
    rewrite (bool_decide_eq_true_2 (known_set (Some ids) ≠ ∅)) by done. simpl andb.
    destruct (decide (gid (al_url a) ∈ ids)) as [Hin|Hin].
    + rewrite (bool_decide_eq_true_2 (gid (al_url a) ∈ known_set (Some ids)))
        by (by apply elem_of_known_set).
      rewrite (bool_decide_eq_true_2 (gid (al_url a) ∈ ids)) by done. simpl.
      by rewrite app_nil_r.
    + rewrite (bool_decide_eq_false_2 (gid (al_url a) ∈ known_set (Some ids)))
        by (by rewrite elem_of_known_set).
      rewrite (bool_decide_eq_false_2 (gid (al_url a) ∈ ids)) by done.
      rewrite omap_cons_eq. unfold article_kept_id at 1.
      destruct (bool_decide (al_title a = "") || (py_len (al_title a) <? 10)%nat); [apply IH|].
      rewrite (bool_decide_eq_false_2 (known_set (Some ids) = ∅)) by done. simpl andb.
      cbv iota. rewrite IH, map_video_id_snoc. by rewrite <- app_assoc.
Qed.

Lemma scan_yt_entries_first_run tr name entries acc :
  (length acc <= 4)%nat -> (length (scan_yt_entries tr name ∅ entries acc) <= 5)%nat.
Proof.
  revert acc. induction entries as [|oe entries IH]; intros acc Hacc; cbn [scan_yt_entries].
  - lia.
  - destruct oe as [e|]; [|by apply IH].
    destruct (e_id e) as [vid|]; [|by apply IH].
    case_bool_decide; [by apply IH|].
    rewrite (bool_decide_eq_false_2 ((∅ : gset string) ≠ ∅)) by (intros Hemp; by apply Hemp).
    rewrite ?andb_true_l, ?andb_false_l. cbv iota zeta.
    destruct (bad_title (default "No Title" (e_title e))); [by apply IH|].
    try (case_bool_decide as Hemp2; [|done]). rewrite ?andb_true_l, ?andb_false_l.
    match goal with |- context [ (5 <=? ?n)%nat ] => destruct (5 <=? n)%nat eqn:E end.
    + rewrite length_app. simpl. lia.
    + apply IH. apply Nat.leb_gt in E. rewrite length_app in E |- *. simpl in E |- *. lia.
Qed.

Lemma scan_rss_entries_first_run tr name entries acc :
  (length acc <= 4)%nat -> (length (scan_rss_entries tr name ∅ entries acc) <= 5)%nat.
Proof.
  revert acc. induction entries as [|e entries IH]; intros acc Hacc; cbn [scan_rss_entries].
  - lia.
  - destruct (r_id e) as [vid|]; [|by apply IH].
    rewrite (bool_decide_eq_false_2 ((∅ : gset string) ≠ ∅)) by (intros Hemp; by apply Hemp).
    rewrite ?andb_true_l, ?andb_false_l. cbv iota zeta.
    try (case_bool_decide as Hemp2; [|done]). rewrite ?andb_true_l, ?andb_false_l.
    match goal with |- context [ (5 <=? ?n)%nat ] => destruct (5 <=? n)%nat eqn:E end.
    + rewrite length_app. simpl. lia.
    + apply IH. apply Nat.leb_gt in E. rewrite length_app in E |- *. simpl in E |- *. lia.
Qed.

Lemma scan_articles_first_run tr gid now name image links acc :
  (length acc <= 4)%nat -> (length (scan_articles tr gid now name image ∅ links acc) <= 5)%nat.
Proof.
  revert acc. induction links as [|a links IH]; intros acc Hacc; cbn [scan_articles].
  - lia.
  - rewrite (bool_decide_eq_false_2 ((∅ : gset string) ≠ ∅)) by (intros Hemp; by apply Hemp).
    rewrite ?andb_true_l, ?andb_false_l. cbv iota zeta.
    destruct (bool_decide (al_title a = "") || (py_len (al_title a) <? 10)%nat); [by apply IH|].
    try (case_bool_decide as Hemp2; [|done]). rewrite ?andb_true_l, ?andb_false_l.
    match goal with |- context [ (5 <=? ?n)%nat ] => destruct (5 <=? n)%nat eqn:E end.
    + rewrite length_app. simpl. lia.
    + apply IH. apply Nat.leb_gt in E. rewrite length_app in E |- *. simpl in E |- *. lia.
Qed.

Lemma known_set_first_run (last_ids : option (list string)) :
  last_ids = None \/ last_ids = Some [] -> known_set last_ids = ∅.
Proof. by intros [-> | ->]. Qed.

(** [C3] (amended) Stopping rule of the adapters.  With a non-empty
    watermark list the YouTube adapter returns, in entry order, the
    entries before the first one whose id is in the list, except the
    entries it skips (no id, or an empty, "[Private video]" or
    "[Deleted video]" title); its RSS fallback returns the entries before
    the first known id among the first 50 (skipping entries without id);
    the newspaper adapter returns the links before the first known article
    id among the first 50 links, skipping titles shorter than 10
    characters.  Without a watermark each adapter returns at most 5 items. *)
Theorem adapter_stopping_rule :
  (forall tr name (ids : list string) is_playlist entries,
     ids <> [] ->
     map video_id (fetch_youtube_channel_videos tr name (Some ids) is_playlist (Extracted entries))
     = omap yt_kept_id (prefix_before (yt_known ids) entries)) /\
  (forall tr name (ids : list string) rss,
     ids <> [] ->
     map video_id (fetch_youtube_channel_videos tr name (Some ids) false (ExtractError (Some rss)))
     = omap r_id (prefix_before (rss_known ids) (firstn 50 rss))) /\
  (forall tr gid now name image (ids : list string) links,
     ids <> [] ->
     map video_id (fetch_newspaper_articles tr gid now name image (Some ids) links)
     = omap (article_kept_id gid) (prefix_before (article_known gid ids) (firstn 50 links))) /\
  (forall tr name last_ids is_playlist res,
     last_ids = None \/ last_ids = Some [] ->
     (length (fetch_youtube_channel_videos tr name last_ids is_playlist res) <= 5)%nat) /\
  (forall tr gid now name image last_ids links,
     last_ids = None \/ last_ids = Some [] ->
     (length (fetch_newspaper_articles tr gid now name image last_ids links) <= 5)%nat).
Proof.
  split; [|split; [|split; [|split]]].
  - intros tr name ids is_playlist entries Hne. unfold fetch_youtube_channel_videos.
    by rewrite scan_yt_entries_watermark.
  - intros tr name ids rss Hne. unfold fetch_youtube_channel_videos.
    by rewrite scan_rss_entries_watermark.
  - intros tr gid now name image ids links Hne. unfold fetch_newspaper_articles.
    by rewrite scan_articles_watermark.
  - intros tr name last_ids is_playlist res Hfirst. unfold fetch_youtube_channel_videos.
    rewrite known_set_first_run by done.
    destruct res as [entries|[rss|]].
    + apply scan_yt_entries_first_run. simpl. lia.
    + destruct is_playlist; [simpl; lia|]. apply scan_rss_entries_first_run. simpl. lia.
    + destruct is_playlist; simpl; lia.
  - intros tr gid now name image last_ids links Hfirst. unfold fetch_newspaper_articles.
    rewrite known_set_first_run by done. apply scan_articles_first_run. simpl. lia.
Qed.

Lemma adapter_stopping_rule_witness :
  (["k"] : list string) <> [] /\
  map video_id (fetch_youtube_channel_videos (fun s => s) "Reuters" (Some ["k"]) false
    (Extracted [Some (mk_yt_entry (Some "b") (Some "Update") 1);
                Some (mk_yt_entry (Some "k") (Some "Old") 0)]))
  = omap yt_kept_id (prefix_before (yt_known ["k"])
      [Some (mk_yt_entry (Some "b") (Some "Update") 1);
       Some (mk_yt_entry (Some "k") (Some "Old") 0)]).
Proof.
  split; [discriminate|].
  apply (proj1 adapter_stopping_rule). discriminate.
Defined.

(** [C3] as stated fails: with watermark ["k"], a private video "a" before
    "b" belongs to the prefix before "k" but is not returned. *)
Lemma adapter_prefix_counterexample :
  map video_id (fetch_youtube_channel_videos (fun s => s) "Reuters" (Some ["k"]) false
    (Extracted [Some (mk_yt_entry (Some "a") (Some "[Private video]") 2);
                Some (mk_yt_entry (Some "b") (Some "Update") 1);
                Some (mk_yt_entry (Some "k") (Some "Old") 0)]))
  <> omap yt_entry_id (prefix_before (yt_known ["k"])
      [Some (mk_yt_entry (Some "a") (Some "[Private video]") 2);
       Some (mk_yt_entry (Some "b") (Some "Update") 1);
       Some (mk_yt_entry (Some "k") (Some "Old") 0)]).
Proof. vm_compute. intros H. discriminate H. Qed.

(** ** The persistence loop *)

Lemma link_exists_false (rows : list news_row) (l : string) :
  link_exists rows l = false -> l ∉ map row_link rows.
Proof.
  unfold link_exists. intros H Hin. apply list_elem_of_fmap in Hin as [r [-> Hr]].
  assert (existsb (fun r' => bool_decide (row_link r' = row_link r)) rows = true) as Ht.
  { apply existsb_exists. exists r. split; [by apply list_elem_of_In|].
    by apply bool_decide_eq_true_2. }
  congruence.
Qed.

Lemma link_exists_true (rows : list news_row) (l : string) :
  link_exists rows l = true -> l ∈ map row_link rows.
Proof.
  unfold link_exists. intros H. apply existsb_exists in H as [r [Hr Hb]].
  apply bool_decide_eq_true_1 in Hb. subst l.
  apply list_elem_of_fmap. exists r. split; [done|]. by apply list_elem_of_In.
Qed.

(** Every iteration either leaves the state alone or appends one row whose
    link was not in the table. *)
Lemma persist_one_cases first_run ty commit_fails s v :
  persist_one first_run ty commit_fails s v = s \/
  ((link v ∉ map row_link (ps_rows s)) /\
   (exists row, row_link row = link v /\ ps_rows (persist_one first_run ty commit_fails s v)
                                        = ps_rows s ++ [row])).
Proof.
  unfold persist_one.
  destruct (link_exists (ps_rows s) (link v)) eqn:He; [by left|].
  destruct (commit_fails (link v)); [by left|].
  right. split; [by apply link_exists_false|]. eexists. split; [|reflexivity]. done.
Qed.

Lemma persist_all_prefix first_run ty commit_fails s vs :
  exists extra, ps_rows (persist_all first_run ty commit_fails s vs) = ps_rows s ++ extra.
Proof.
  revert s. induction vs as [|v vs IH]; intros s; simpl.
  - exists []. by rewrite app_nil_r.
  - destruct (IH (persist_one first_run ty commit_fails s v)) as [extra Hx].
    unfold persist_all in *. rewrite Hx.
    destruct (persist_one_cases first_run ty commit_fails s v) as [-> | [_ [row [_ ->]]]].
    + by exists extra.
    + exists (row :: extra). by rewrite <- app_assoc.
Qed.

Lemma persist_all_nodup first_run ty commit_fails s vs :
  NoDup (map row_link (ps_rows s)) ->
  NoDup (map row_link (ps_rows (persist_all first_run ty commit_fails s vs))).
Proof.
  revert s. induction vs as [|v vs IH]; intros s Hnd; simpl; [done|].
  apply IH.
  destruct (persist_one_cases first_run ty commit_fails s v) as [-> | [Hnot [row [Hl ->]]]];
    [done|].
  rewrite map_app. simpl. apply NoDup_app. split; [done|]. split.
  - intros x Hx Hx'. apply list_elem_of_singleton in Hx'. subst x. congruence.
  - apply NoDup_singleton.
Qed.

Lemma persist_all_known_link first_run ty commit_fails s vs l :
  l ∈ map row_link (ps_rows s) ->
  filter (fun r => row_link r = l) (ps_rows (persist_all first_run ty commit_fails s vs))
  = filter (fun r => row_link r = l) (ps_rows s).
Proof.
  revert s. induction vs as [|v vs IH]; intros s Hl; simpl; [done|].
  destruct (persist_one_cases first_run ty commit_fails s v) as [Heq | [Hnot [row [Hrow Heq]]]].
  - rewrite Heq in *. by apply IH.
  - rewrite IH.
    + rewrite Heq, filter_app. rewrite (filter_cons_False _ row) by congruence.
      by rewrite app_nil_r.
    + rewrite Heq, map_app. apply elem_of_app. by left.
Qed.

(** [C4] De-duplication is idempotent and keeps links unique: an
    iteration on a candidate whose link is already stored leaves the state
    unchanged; over a whole poll, however often that link recurs among the
    candidates, the rows carrying it stay exactly as they were; and a
    category table with unique links still has unique links after the
    poll's persistence step. *)
Theorem persist_dedup_idempotent :
  (forall first_run ty commit_fails s v,
     link v ∈ map row_link (ps_rows s) ->
     persist_one first_run ty commit_fails s v = s) /\
  (forall first_run ty commit_fails s vs l,
     l ∈ map row_link (ps_rows s) ->
     filter (fun r => row_link r = l) (ps_rows (persist_all first_run ty commit_fails s vs))
     = filter (fun r => row_link r = l) (ps_rows s)) /\
  (forall first_run ty commit_fails update_wm st videos,
     NoDup (map row_link (cs_news st)) ->
     NoDup (map row_link (cs_news (pr_state
       (ingest first_run ty commit_fails update_wm st videos))))).
Proof.
  split; [|split].
  - intros first_run ty commit_fails s v Hin. unfold persist_one.
    destruct (link_exists (ps_rows s) (link v)) eqn:He; [done|].
    exfalso. by apply (link_exists_false _ _ He).
  - intros. by apply persist_all_known_link.
  - intros first_run ty commit_fails update_wm st videos Hnd. unfold ingest. simpl.
    by apply persist_all_nodup.
Qed.

Lemma persist_dedup_idempotent_witness :
  (link sample_video ∈ map row_link (ps_rows (mk_persist_state [sample_row] [] [])) /\
   persist_one false "world" (fun _ => false) (mk_persist_state [sample_row] [] []) sample_video
   = mk_persist_state [sample_row] [] []) /\
  (link sample_video ∈ map row_link (ps_rows (mk_persist_state [sample_row] [] [])) /\
   filter (fun r => row_link r = link sample_video)
     (ps_rows (persist_all false "world" (fun _ => false) (mk_persist_state [sample_row] [] [])
                 [sample_video; sample_video]))
   = filter (fun r => row_link r = link sample_video) [sample_row]) /\
  (NoDup (map row_link (cs_news (mk_category_state [sample_row] ∅))) /\
   NoDup (map row_link (cs_news (pr_state
     (ingest false "world" (fun _ => false) (fun wm _ => wm) (mk_category_state [sample_row] ∅)
        [sample_video; sample_video]))))).
Proof.
  assert (Hin : link sample_video ∈ map row_link (ps_rows (mk_persist_state [sample_row] [] [])))
    by (simpl; left).
  assert (Hnd : NoDup (map row_link (cs_news (mk_category_state [sample_row] ∅))))
    by (simpl; apply NoDup_singleton).
  split; [|split].
  - split; [exact Hin|]. exact (proj1 persist_dedup_idempotent _ _ _ _ _ Hin).
  - split; [exact Hin|]. exact (proj1 (proj2 persist_dedup_idempotent) _ _ _ _ _ _ Hin).
  - split; [exact Hnd|]. exact (proj2 (proj2 persist_dedup_idempotent) _ _ _ _ _ _ Hnd).
Defined.

Lemma persist_all_app first_run ty commit_fails s vs1 vs2 :
  persist_all first_run ty commit_fails s (vs1 ++ vs2)
  = persist_all first_run ty commit_fails (persist_all first_run ty commit_fails s vs1) vs2.
Proof. unfold persist_all. apply fold_left_app. Qed.

(** [C7] Per-item persistence: a candidate whose commit raises leaves the
    state as it was (only its own transaction is rolled back) and the loop
    goes on with the remaining candidates; rows committed for earlier
    candidates stay in the table whatever happens later in the batch; and
    the watermark update is computed from the fetched batch, whatever the
    outcome of the commits. *)
Theorem per_item_persistence_atomicity :
  (forall first_run ty commit_fails s v,
     commit_fails (link v) = true ->
     persist_one first_run ty commit_fails s v = s) /\
  (forall first_run ty commit_fails s v vs,
     commit_fails (link v) = true ->
     persist_all first_run ty commit_fails s (v :: vs)
     = persist_all first_run ty commit_fails s vs) /\
  (forall first_run ty commit_fails s vs1 vs2,
     exists extra,
       ps_rows (persist_all first_run ty commit_fails s (vs1 ++ vs2))
       = ps_rows (persist_all first_run ty commit_fails s vs1) ++ extra) /\
  (forall first_run ty commit_fails update_wm st videos,
     cs_wm (pr_state (ingest first_run ty commit_fails update_wm st videos))
     = update_wm (cs_wm st) (group_by_source videos)).
Proof.
  assert (Hone : forall first_run ty commit_fails s v,
            commit_fails (link v) = true -> persist_one first_run ty commit_fails s v = s).
  { intros first_run ty commit_fails s v Hf. unfold persist_one.
    destruct (link_exists (ps_rows s) (link v)); [done|]. by rewrite Hf. }
  split; [exact Hone|split; [|split]].
  - intros first_run ty commit_fails s v vs Hf. unfold persist_all. simpl.
    by rewrite Hone.
  - intros. rewrite persist_all_app. apply persist_all_prefix.
  - intros. reflexivity.
Qed.

Lemma per_item_persistence_atomicity_witness :
  (sample_commit_fails (link sample_vb) = true /\
   persist_one false "world" sample_commit_fails sample_after_va sample_vb = sample_after_va) /\
  (sample_commit_fails (link sample_vb) = true /\
   persist_all false "world" sample_commit_fails sample_after_va [sample_vb; sample_vc]
   = persist_all false "world" sample_commit_fails sample_after_va [sample_vc]) /\
  (exists extra,
     ps_rows (persist_all false "world" sample_commit_fails sample_store
                ([sample_va] ++ [sample_vb; sample_vc]))
     = ps_rows (persist_all false "world" sample_commit_fails sample_store [sample_va]) ++ extra) /\
  map row_link (ps_rows (persist_all false "world" sample_commit_fails sample_store
                           [sample_va; sample_vb; sample_vc]))
  = ["https://www.youtube.com/watch?v=v1"; "https://www.youtube.com/watch?v=va";
     "https://www.youtube.com/watch?v=vc"].
Proof.
  assert (Hf : sample_commit_fails (link sample_vb) = true) by reflexivity.
  split; [|split; [|split]].
  - split; [exact Hf|]. exact (proj1 per_item_persistence_atomicity _ _ _ _ _ Hf).
  - split; [exact Hf|].
    exact (proj1 (proj2 per_item_persistence_atomicity) _ _ _ _ _ [sample_vc] Hf).
  - exact (proj1 (proj2 (proj2 per_item_persistence_atomicity)) false "world"
             sample_commit_fails sample_store [sample_va] [sample_vb; sample_vc]).
  - vm_compute. reflexivity.
Defined.

(** ** The first poll *)

Lemma persist_all_first_run ty commit_fails s1 s2 vs :
  ps_rows s1 = ps_rows s2 -> ps_found s1 = ps_found s2 ->
  ps_rows (persist_all true ty commit_fails s1 vs) = ps_rows (persist_all false ty commit_fails s2 vs) /\
  ps_found (persist_all true ty commit_fails s1 vs) = ps_found (persist_all false ty commit_fails s2 vs) /\
  ps_calls (persist_all true ty commit_fails s1 vs) = ps_calls s1.
Proof.
  revert s1 s2. induction vs as [|v vs IH]; intros s1 s2 Hr Hf; simpl; [done|].
  unfold persist_one at 1 3 5. unfold persist_one at 1 2. rewrite <- Hr, <- Hf.
  destruct (link_exists (ps_rows s1) (link v)); [by apply IH|].
  destruct (commit_fails (link v)); [by apply IH|].
  destruct (IH (mk_persist_state (ps_rows s1 ++ [mk_news_row (next_row_id (ps_rows s1)) (title v) (link v) (summary v) (published v) (source v)])
                  (ps_found s1 ++ [mk_news_row (next_row_id (ps_rows s1)) (title v) (link v) (summary v) (published v) (source v)])
                  (ps_calls s1))
               (mk_persist_state (ps_rows s1 ++ [mk_news_row (next_row_id (ps_rows s1)) (title v) (link v) (summary v) (published v) (source v)])
                  (ps_found s1 ++ [mk_news_row (next_row_id (ps_rows s1)) (title v) (link v) (summary v) (published v) (source v)])
                  (ps_calls s2 ++ [mk_timeline_call (next_row_id (ps_rows s1)) (title v) (summary v) ty]))
               eq_refl eq_refl) as [H1 [H2 H3]].
  done.
Qed.

Lemma persist_all_rows_found first_run ty commit_fails s vs :
  exists extra,
    ps_rows (persist_all first_run ty commit_fails s vs) = ps_rows s ++ extra /\
    ps_found (persist_all first_run ty commit_fails s vs) = ps_found s ++ extra.
Proof.
  unfold persist_all. revert s. induction vs as [|v vs IH]; intros s; simpl.
  - exists []. by rewrite !app_nil_r.
  - destruct (IH (persist_one first_run ty commit_fails s v)) as [extra [Hr Hf]].
    rewrite Hr, Hf. unfold persist_one.
    destruct (link_exists (ps_rows s) (link v)); [by exists extra|].
    destruct (commit_fails (link v)); [by exists extra|]. simpl.
    eexists. rewrite <- !app_assoc. split; reflexivity.
Qed.

Lemma insert_desc_perm (x : video) (l : list video) :
  Permutation (insert_desc x l) (x :: l).
Proof.
  induction l as [|y l IH]; simpl; [done|].
  destruct (published x <=? published y)%Z; [|done].
  rewrite IH. apply perm_swap.
Qed.

Lemma fold_insert_desc_perm (l acc : list video) :
  Permutation (fold_left (fun acc x => insert_desc x acc) l acc) (l ++ acc).
Proof.
  revert acc. induction l as [|x l IH]; intros acc; simpl; [done|].
  rewrite IH, insert_desc_perm. symmetry. apply Permutation_middle.
Qed.

Lemma sort_published_desc_perm (l : list video) : Permutation (sort_published_desc l) l.
Proof. unfold sort_published_desc. rewrite fold_insert_desc_perm. by rewrite app_nil_r. Qed.

Lemma youtube_adapter_first_run_bound tr name last_ids is_playlist res :
  last_ids = None \/ last_ids = Some [] ->
  (length (fetch_youtube_channel_videos tr name last_ids is_playlist res) <= 5)%nat.
Proof.
  intros Hfirst. unfold fetch_youtube_channel_videos.
  rewrite known_set_first_run by done.
  destruct res as [entries|[rss|]].
  - apply scan_yt_entries_first_run. simpl. lia.
  - destruct is_playlist; [simpl; lia|]. apply scan_rss_entries_first_run. simpl. lia.
  - destruct is_playlist; simpl; lia.
Qed.

Lemma newspaper_adapter_first_run_bound tr gid now name image last_ids links :
  last_ids = None \/ last_ids = Some [] ->
  (length (fetch_newspaper_articles tr gid now name image last_ids links) <= 5)%nat.
Proof.
  intros Hfirst. unfold fetch_newspaper_articles.
  rewrite known_set_first_run by done. apply scan_articles_first_run. simpl. lia.
Qed.

Lemma get_recent_ids_empty (S : string) : get_recent_ids ∅ S = None.
Proof. unfold get_recent_ids. by rewrite lookup_empty. Qed.

Lemma combine_results_length_bound (rs : list task_result) :
  Forall (fun r => (length (task_videos r) <= 5)%nat) rs ->
  (length (combine_results rs) <= 5 * length rs)%nat.
Proof.
  intros H. unfold combine_results.
  rewrite (Permutation_length (sort_published_desc_perm _)).
  induction H as [|r rs Hr Hrs IH]; simpl; [lia|].
  rewrite length_app. lia.
Qed.

(** [C2] The first poll of a category stores and broadcasts what it fetched
    exactly as a later poll does, and updates the watermarks the same way;
    the first-run flag only suppresses the event-timeline clustering
    calls.  In every poll the table grows by exactly the broadcast items.
    The backlog is bounded by the adapters instead: for a source with no
    watermark (no record, or an empty id list) each adapter returns at
    most 5 items, so a poll over an empty watermark table fetches at most
    5 items per source. *)
Theorem first_run_ingests_like_steady_state :
  (forall ty commit_fails update_wm st videos,
     pr_state (ingest true ty commit_fails update_wm st videos)
     = pr_state (ingest false ty commit_fails update_wm st videos) /\
     pr_broadcasts (ingest true ty commit_fails update_wm st videos)
     = pr_broadcasts (ingest false ty commit_fails update_wm st videos) /\
     pr_timeline_calls (ingest true ty commit_fails update_wm st videos) = []) /\
  (forall first_run ty commit_fails update_wm st videos,
     cs_news (pr_state (ingest first_run ty commit_fails update_wm st videos))
     = cs_news st ++ pr_broadcasts (ingest first_run ty commit_fails update_wm st videos)) /\
  (forall tr name last_ids is_playlist res,
     last_ids = None \/ last_ids = Some [] ->
     (length (fetch_youtube_channel_videos tr name last_ids is_playlist res) <= 5)%nat) /\
  (forall tr gid now name image last_ids links,
     last_ids = None \/ last_ids = Some [] ->
     (length (fetch_newspaper_articles tr gid now name image last_ids links) <= 5)%nat) /\
  (forall tr channels net,
     (length (fetch_all_youtube_channels tr channels net ∅) <= 5 * length channels)%nat) /\
  (forall tr gid now sources net,
     (length (fetch_all_newspaper_sources tr gid now sources net ∅) <= 5 * length sources)%nat).
Proof.
  split; [|split; [|split; [|split; [|split]]]].
  - intros ty commit_fails update_wm st videos. unfold ingest. simpl.
    destruct (persist_all_first_run ty commit_fails (mk_persist_state (cs_news st) [] [])
                (mk_persist_state (cs_news st) [] []) videos eq_refl eq_refl)
      as [Hr [Hf Hc]].
    rewrite Hr, Hf, Hc. done.
  - intros first_run ty commit_fails update_wm st videos. unfold ingest. simpl.
    destruct (persist_all_rows_found first_run ty commit_fails
                (mk_persist_state (cs_news st) [] []) videos) as [extra [Hr Hf]].
    rewrite Hr, Hf. done.
  - apply youtube_adapter_first_run_bound.
  - apply newspaper_adapter_first_run_bound.
  - intros tr channels net. unfold fetch_all_youtube_channels.
    rewrite <- (length_map (run_youtube_task tr net ∅) channels).
    apply combine_results_length_bound. apply Forall_forall. intros r Hr.
    apply list_elem_of_In, in_map_iff in Hr as [ch [<- _]].
    unfold run_youtube_task. destruct (net (ch_name ch)); simpl; [|lia].
    apply youtube_adapter_first_run_bound. left. apply get_recent_ids_empty.
  - intros tr gid now sources net. unfold fetch_all_newspaper_sources.
    rewrite <- (length_map (run_newspaper_task tr gid now net ∅) sources).
    apply combine_results_length_bound. apply Forall_forall. intros r Hr.
    apply list_elem_of_In, in_map_iff in Hr as [ch [<- _]].
    unfold run_newspaper_task. destruct (net (ch_name ch)) as [[image links]|]; simpl; [|lia].
    apply newspaper_adapter_first_run_bound. left. apply get_recent_ids_empty.
Qed.

(** [C2] as stated fails: on the first poll, a channel whose listing holds
    one new video gets that video stored and broadcast. *)
Lemma first_run_persists_counterexample :
  ~ (pr_broadcasts (fetch_youtube_feeds_cycle (fun s => s)
        [mk_channel "https://www.youtube.com/@Reuters/videos" "Reuters" "channel"]
        (fun _ => Some (Extracted [Some (mk_yt_entry (Some "v1") (Some "Headline") 1)]))
        (fun _ => false) true 0 (mk_category_state [] ∅)) = [] /\
     cs_news (pr_state (fetch_youtube_feeds_cycle (fun s => s)
        [mk_channel "https://www.youtube.com/@Reuters/videos" "Reuters" "channel"]
        (fun _ => Some (Extracted [Some (mk_yt_entry (Some "v1") (Some "Headline") 1)]))
        (fun _ => false) true 0 (mk_category_state [] ∅))) = []).
Proof. vm_compute. intros [H _]. discriminate H. Qed.

(** ** Combining the per-source results *)

Lemma combine_results_in (rs : list task_result) (r : task_result) (v : video) :
  In r rs -> In v (task_videos r) -> In v (combine_results rs).
Proof.
  intros Hr Hv. unfold combine_results.
  apply (Permutation_in _ (symmetry (sort_published_desc_perm _))).
  apply in_concat. exists (task_videos r). split; [|done]. by apply in_map.
Qed.

(** [C8] Per-source failure isolation: the combined batch is a reordering
    of the concatenated per-source results, a source whose task raised
    contributes nothing, removing such a source changes nothing, and every
    video returned by a source whose task succeeded is in the batch. *)
Theorem per_source_failure_isolation :
  (forall rs, Permutation (combine_results rs) (concat (map task_videos rs))) /\
  task_videos TaskRaised = [] /\
  (forall tr chs1 ch chs2 net wm,
     net (ch_name ch) = None ->
     fetch_all_youtube_channels tr (chs1 ++ ch :: chs2) net wm
     = fetch_all_youtube_channels tr (chs1 ++ chs2) net wm) /\
  (forall tr chs net wm ch vs v,
     In ch chs -> run_youtube_task tr net wm ch = TaskOk vs -> In v vs ->
     In v (fetch_all_youtube_channels tr chs net wm)) /\
  (forall tr gid now srcs1 src srcs2 net wm,
     net (ch_name src) = None ->
     fetch_all_newspaper_sources tr gid now (srcs1 ++ src :: srcs2) net wm
     = fetch_all_newspaper_sources tr gid now (srcs1 ++ srcs2) net wm) /\
  (forall tr gid now srcs net wm src vs v,
     In src srcs -> run_newspaper_task tr gid now net wm src = TaskOk vs -> In v vs ->
     In v (fetch_all_newspaper_sources tr gid now srcs net wm)).
Proof.
  split; [intros rs; apply sort_published_desc_perm|].
  split; [done|]. split; [|split; [|split]].
  - intros tr chs1 ch chs2 net wm Hnone. unfold fetch_all_youtube_channels, combine_results.
    assert (Hr : run_youtube_task tr net wm ch = TaskRaised)
      by (unfold run_youtube_task; by rewrite Hnone).
    rewrite !map_app, !concat_app. cbn [map concat]. rewrite Hr. done.
  - intros tr chs net wm ch vs v Hch Hrun Hv. unfold fetch_all_youtube_channels.
    apply (combine_results_in _ (TaskOk vs)); [|done].
    rewrite <- Hrun. by apply in_map.
  - intros tr gid now srcs1 src srcs2 net wm Hnone.
    unfold fetch_all_newspaper_sources, combine_results.
    assert (Hr : run_newspaper_task tr gid now net wm src = TaskRaised)
      by (unfold run_newspaper_task; by rewrite Hnone).
    rewrite !map_app, !concat_app. cbn [map concat]. rewrite Hr. done.
  - intros tr gid now srcs net wm src vs v Hsrc Hrun Hv. unfold fetch_all_newspaper_sources.
    apply (combine_results_in _ (TaskOk vs)); [|done].
    rewrite <- Hrun. by apply in_map.
Qed.

Lemma per_source_failure_isolation_witness :
  (sample_yt_net (ch_name sample_bad_channel) = None /\
   fetch_all_youtube_channels (fun s => s) ([] ++ sample_bad_channel :: [sample_good_channel])
     sample_yt_net ∅
   = fetch_all_youtube_channels (fun s => s) ([] ++ [sample_good_channel]) sample_yt_net ∅) /\
  (In sample_good_channel [sample_bad_channel; sample_good_channel] /\
   run_youtube_task (fun s => s) sample_yt_net ∅ sample_good_channel
   = TaskOk [mk_video "v1" "Talks resume" "https://www.youtube.com/watch?v=v1"
               "https://img.youtube.com/vi/v1/maxresdefault.jpg" "Reuters" 0
               (yt_summary (fun s => s) "Reuters")] /\
   In (mk_video "v1" "Talks resume" "https://www.youtube.com/watch?v=v1"
         "https://img.youtube.com/vi/v1/maxresdefault.jpg" "Reuters" 0
         (yt_summary (fun s => s) "Reuters"))
     (fetch_all_youtube_channels (fun s => s) [sample_bad_channel; sample_good_channel]
        sample_yt_net ∅)) /\
  (sample_news_net (ch_name sample_bad_channel) = None /\
   fetch_all_newspaper_sources (fun s => s) (fun u => u) 0
     ([] ++ sample_bad_channel :: [sample_good_channel]) sample_news_net ∅
   = fetch_all_newspaper_sources (fun s => s) (fun u => u) 0
       ([] ++ [sample_good_channel]) sample_news_net ∅) /\
  (In sample_good_channel [sample_bad_channel; sample_good_channel] /\
   run_newspaper_task (fun s => s) (fun u => u) 0 sample_news_net ∅ sample_good_channel
   = TaskOk [mk_video "https://example.com/a1" "Ceasefire talks resume" "https://example.com/a1"
               "i" "Reuters" 0 (newspaper_summary "Reuters")] /\
   In (mk_video "https://example.com/a1" "Ceasefire talks resume" "https://example.com/a1"
         "i" "Reuters" 0 (newspaper_summary "Reuters"))
     (fetch_all_newspaper_sources (fun s => s) (fun u => u) 0
        [sample_bad_channel; sample_good_channel] sample_news_net ∅)).
Proof.
  destruct per_source_failure_isolation as [_ [_ [Hyt1 [Hyt2 [Hnp1 Hnp2]]]]].
  assert (Hb : sample_yt_net (ch_name sample_bad_channel) = None) by reflexivity.
  assert (Hnb : sample_news_net (ch_name sample_bad_channel) = None) by reflexivity.
  assert (Hin : In sample_good_channel [sample_bad_channel; sample_good_channel])
    by (right; left; reflexivity).
  assert (Hrun : run_youtube_task (fun s => s) sample_yt_net ∅ sample_good_channel
     = TaskOk [mk_video "v1" "Talks resume" "https://www.youtube.com/watch?v=v1"
                 "https://img.youtube.com/vi/v1/maxresdefault.jpg" "Reuters" 0
                 (yt_summary (fun s => s) "Reuters")]) by (vm_compute; reflexivity).
  assert (Hnrun : run_newspaper_task (fun s => s) (fun u => u) 0 sample_news_net ∅
                    sample_good_channel
     = TaskOk [mk_video "https://example.com/a1" "Ceasefire talks resume" "https://example.com/a1"
                 "i" "Reuters" 0 (newspaper_summary "Reuters")]) by (vm_compute; reflexivity).
  split; [|split; [|split]].
  - split; [exact Hb|]. exact (Hyt1 _ [] _ _ _ _ Hb).
  - split; [exact Hin|split; [exact Hrun|]].
    exact (Hyt2 _ _ _ _ _ _ _ Hin Hrun (or_introl eq_refl)).
  - split; [exact Hnb|]. exact (Hnp1 _ _ _ [] _ _ _ _ Hnb).
  - split; [exact Hin|split; [exact Hnrun|]].
    exact (Hnp2 _ _ _ _ _ _ _ _ _ Hin Hnrun (or_introl eq_refl)).
Defined.

(** ** The region-filtered loop and the watermark timestamp *)

(** [C5] What the Yemen loop does with a fetched video that fails the
    keyword filter: it is neither stored nor broadcast, and the channel's
    watermark does not move (it still holds ["k"]), so the video is fetched
    again on every later poll.  The world loop, given the same listing,
    records it in the watermark. *)
Theorem yemen_filtered_video_keeps_watermark :
  let r := fetch_yemen_youtube_feeds_cycle (fun s => s) [sample_yemen_channel]
             sample_off_topic_net (fun _ => false) false 9 sample_yemen_state in
  pr_broadcasts r = [] /\ cs_news (pr_state r) = [] /\
  get_recent_ids (cs_wm (pr_state r)) "ch" = Some ["k"] /\
  get_recent_ids (cs_wm (pr_state (fetch_youtube_feeds_cycle (fun s => s) [sample_yemen_channel]
                     sample_off_topic_net (fun _ => false) false 9 sample_yemen_state))) "ch"
  = Some ["n1"; "k"].
Proof. vm_compute. repeat split. Qed.

(** [C6] What the world loop writes as the watermark timestamp of a channel
    whose batch holds a video published at 2 and one published at 1: the
    batch is sorted newest first, so [channel_videos[-1]] is the oldest
    video and the timestamp is 1, not 2; the ids are also recorded oldest
    first. *)
Theorem watermark_timestamp_of_oldest_video :
  let r := fetch_youtube_feeds_cycle (fun s => s) [sample_good_channel]
             sample_two_videos_net (fun _ => false) false 9 (mk_category_state [] ∅) in
  map published (fetch_all_youtube_channels (fun s => s) [sample_good_channel]
                   sample_two_videos_net ∅) = [2%Z; 1%Z] /\
  option_map last_video_published (cs_wm (pr_state r) !! "Reuters") = Some 1%Z /\
  get_recent_ids (cs_wm (pr_state r)) "Reuters" = Some ["n1"; "n2"].
Proof. vm_compute. repeat split. Qed.

(** ** The event-timeline endpoint *)

Lemma insert_item_asc_perm (x : timeline_item) (l : list timeline_item) :
  Permutation (insert_item_asc x l) (x :: l).
Proof.
  induction l as [|y l IH]; simpl; [done|].
  destruct (ti_published y <=? ti_published x)%Z; [|done].
  rewrite IH. apply perm_swap.
Qed.

Lemma fold_insert_item_asc_perm (l acc : list timeline_item) :
  Permutation (fold_left (fun acc x => insert_item_asc x acc) l acc) (l ++ acc).
Proof.
  revert acc. induction l as [|x l IH]; intros acc; simpl; [done|].
  rewrite IH, insert_item_asc_perm. symmetry. apply Permutation_middle.
Qed.

Lemma items_oldest_first_perm (l : list timeline_item) : Permutation (items_oldest_first l) l.
Proof. unfold items_oldest_first. rewrite fold_insert_item_asc_perm. by rewrite app_nil_r. Qed.

Definition published_le (a b : timeline_item) : Prop := (ti_published a <= ti_published b)%Z.

Lemma insert_item_asc_sorted (x : timeline_item) (l : list timeline_item) :
  Sorted published_le l -> Sorted published_le (insert_item_asc x l).
Proof.
  induction 1 as [|y l Hs IH Hhd]; simpl; [by repeat constructor|].
  case_eq (ti_published y <=? ti_published x)%Z; intros E.
  - apply Z.leb_le in E. constructor; [exact IH|].
    destruct l as [|z l]; simpl; [constructor; exact E|].
    inversion Hhd; subst.
    destruct (ti_published z <=? ti_published x)%Z; constructor; unfold published_le in *; lia.
  - apply Z.leb_gt in E. constructor; [by constructor|]. constructor. unfold published_le. lia.
Qed.

Lemma items_oldest_first_sorted (l : list timeline_item) :
  Sorted published_le (items_oldest_first l).
Proof.
  unfold items_oldest_first.
  assert (H : forall acc, Sorted published_le acc ->
            Sorted published_le (fold_left (fun acc x => insert_item_asc x acc) l acc)).
  { induction l as [|x l IH]; intros acc Hacc; simpl; [done|].
    apply IH. by apply insert_item_asc_sorted. }
  apply H. constructor.
Qed.

Lemma set_add_nodup (p : Z * string) (s : list (Z * string)) : NoDup s -> NoDup (set_add p s).
Proof.
  intros Hs. unfold set_add. case_bool_decide as Hp; [done|].
  apply NoDup_app. split; [done|]. split; [|apply NoDup_singleton].
  intros q Hq Hq'. apply list_elem_of_singleton in Hq'. subst. done.
Qed.

Lemma fold_set_add_nodup {A} (f : A -> Z * string) (ts : list A) (s : list (Z * string)) :
  NoDup s -> NoDup (fold_left (fun s t => set_add (f t) s) ts s).
Proof.
  revert s. induction ts as [|t ts IH]; intros s Hs; simpl; [done|].
  apply IH. by apply set_add_nodup.
Qed.

Lemma find_row_id (rows : list news_row) (rid : Z) (n : news_row) :
  find_row rows rid = Some n -> row_id n = rid.
Proof.
  induction rows as [|r rows IH]; simpl; [discriminate|].
  case_bool_decide as E; [|exact IH]. intros [= <-]. exact E.
Qed.

Lemma lookup_related_key world yemen newspaper (p : Z * string) (it : timeline_item) :
  lookup_related world yemen newspaper p = Some it -> (ti_id it, ti_news_type it) = p.
Proof.
  destruct p as [rid rtype]. unfold lookup_related.
  destruct (find_row _ rid) as [n|] eqn:E; simpl; [|discriminate].
  intros [= <-]. simpl. by rewrite (find_row_id _ _ _ E).
Qed.

Lemma omap_lookup_related_sublist world yemen newspaper (s : list (Z * string)) :
  sublist (map (fun it => (ti_id it, ti_news_type it))
             (omap (lookup_related world yemen newspaper) s)) s.
Proof.
  induction s as [|p s IH]; simpl; [constructor|].
  destruct (lookup_related world yemen newspaper p) as [it|] eqn:E; simpl.
  - rewrite (lookup_related_key _ _ _ _ _ E). by apply sublist_skip.
  - by apply sublist_cons.
Qed.

Lemma gather_related_nodup world yemen newspaper threads ty nid :
  NoDup (map (fun it => (ti_id it, ti_news_type it))
           (gather_related world yemen newspaper threads ty nid)).
Proof.
  unfold gather_related.
  eapply sublist_NoDup; [|apply omap_lookup_related_sublist].
  apply fold_set_add_nodup, fold_set_add_nodup. constructor.
Qed.

(** [C9] The endpoint filters nothing: the items it returns are exactly the
    stored items linked to the requested one by a thread row, in either
    direction ([gather_related]), each (id, category) pair at most once,
    sorted oldest first. *)
Theorem timeline_returns_whole_thread :
  forall world yemen newspaper threads ty nid,
    let items := resp_related_news (get_event_timeline world yemen newspaper threads ty nid) in
    Permutation items (gather_related world yemen newspaper threads ty nid) /\
    NoDup (map (fun it => (ti_id it, ti_news_type it)) items) /\
    Sorted published_le items.
Proof.
  intros world yemen newspaper threads ty nid items.
  assert (Hitems : items = [] /\ gather_related world yemen newspaper threads ty nid = []
                   \/ items = items_oldest_first (gather_related world yemen newspaper threads ty nid)).
  { unfold items, get_event_timeline. case_bool_decide as Hnil; [left|right; done].
    destruct Hnil as [Hfw Hrv]. split; [done|].
    unfold gather_related. rewrite Hfw, Hrv. done. }
  destruct Hitems as [[-> ->] | ->].
  - split; [done|]. split; constructor.
  - split; [apply items_oldest_first_perm|]. split; [|apply items_oldest_first_sorted].
    rewrite items_oldest_first_perm. apply gather_related_nodup.
Qed.

(** [C9] as stated fails: in a thread of four items about the same talks
    and one unrelated item, the specified filter drops the unrelated item
    (only one of five would go), but the endpoint returns it. *)
Lemma timeline_filter_counterexample :
  let items := resp_related_news
                 (get_event_timeline sample_thread_rows [] [] sample_threads "world" 100) in
  length items = 5%nat /\
  length (spec_plausibility_filter items) = 4%nat /\
  spec_plausibility_filter items <> items.
Proof. vm_compute. split; [done|]. split; [done|]. intros H. discriminate H. Qed.

(** ** Event-timeline clustering of the Yemen category *)

Lemma fold_left_Forall {A B} (P : A -> Prop) (f : list A -> B -> list A) (l : list B)
    (acc : list A) :
  (forall acc b, Forall P acc -> Forall P (f acc b)) -> Forall P acc ->
  Forall P (fold_left f l acc).
Proof.
  intros Hf. revert acc. induction l as [|b l IH]; intros acc Hacc; simpl; [exact Hacc|].
  apply IH, Hf, Hacc.
Qed.

Lemma add_threads_primary py_int committed nid ty res :
  Forall (fun t => et_news_id t = nid /\ et_news_type t = ty)
    (add_threads py_int committed nid ty res).
Proof.
  unfold add_threads. apply fold_left_Forall; [|constructor].
  intros pending rid Hp. destruct (parse_related py_int ty rid) as [[rty rnid]|]; [|exact Hp].
  destruct (existsb _ committed); [exact Hp|].
  apply Forall_app. split; [exact Hp|]. constructor; [simpl; done|constructor].
Qed.

Lemma persist_all_calls_type first_run ty commit_fails s vs :
  Forall (fun c => tc_news_type c = ty) (ps_calls s) ->
  Forall (fun c => tc_news_type c = ty) (ps_calls (persist_all first_run ty commit_fails s vs)).
Proof.
  unfold persist_all. revert s. induction vs as [|v vs IH]; intros s Hs; simpl; [exact Hs|].
  apply IH. unfold persist_one.
  destruct (link_exists (ps_rows s) (link v)); [exact Hs|].
  destruct (commit_fails (link v)); [exact Hs|].
  destruct first_run; simpl; [exact Hs|].
  apply Forall_app. split; [exact Hs|]. by repeat constructor.
Qed.

(** [C10] Clustering called for a Yemen item returns the state unchanged:
    no thread row is written and the reasoning service is not called.  Any
    call writes only rows whose primary item is the one it was called for,
    with the category it was called with, and the Yemen loop calls it with
    category "yemen" only; so no thread row has a Yemen item as its
    primary item. *)
Theorem yemen_event_timeline_noop :
  (forall py_int ai world_rows newspaper_rows st news_id news_title news_summary,
     process_event_timeline py_int ai world_rows newspaper_rows st news_id news_title
       news_summary "yemen" = st) /\
  (forall py_int ai world_rows newspaper_rows st news_id news_title news_summary news_type,
     exists new,
       ts_threads (process_event_timeline py_int ai world_rows newspaper_rows st news_id
                     news_title news_summary news_type) = ts_threads st ++ new /\
       Forall (fun t => et_news_id t = news_id /\ et_news_type t = news_type) new) /\
  (forall tr channels net commit_fails first_run now st,
     Forall (fun c => tc_news_type c = "yemen")
       (pr_timeline_calls (fetch_yemen_youtube_feeds_cycle tr channels net commit_fails
                             first_run now st))).
Proof.
  split; [|split].
  - intros. unfold process_event_timeline. by rewrite bool_decide_eq_true_2.
  - intros py_int ai world_rows newspaper_rows st news_id news_title news_summary news_type.
    unfold process_event_timeline.
    case_bool_decide; [exists []; by rewrite app_nil_r|].
    destruct (app _ _); [exists []; by rewrite app_nil_r|].
    cbv zeta.
    match goal with |- context [if ?b then _ else _] => destruct b end; simpl.
    + eexists. split; [reflexivity|]. apply add_threads_primary.
    + exists []. by rewrite app_nil_r.
  - intros. unfold fetch_yemen_youtube_feeds_cycle, ingest. simpl.
    apply persist_all_calls_type. constructor.
Qed.

(* ================================================================== *)
(** * Further properties of the code *)

(** ** Grouping a batch by source *)

Lemma group_get_nil (n : string) : group_get [] n = [].
Proof. reflexivity. Qed.

Lemma group_get_cons (m n : string) (vs : list video) (r : list (string * list video)) :
  group_get ((m, vs) :: r) n = if bool_decide (m = n) then vs else group_get r n.
Proof.
  unfold group_get. simpl. case_decide as E; case_bool_decide; try done.
  destruct (list_find (λ g : string * list video, g.1 = n) r) as [[i [k g]]|]; done.
Qed.

Lemma group_insert_get (v : video) (g : list (string * list video)) (n : string) :
  group_get (group_insert v g) n
  = if bool_decide (source v = n) then group_get g n ++ [v] else group_get g n.
Proof.
  induction g as [|[m vs] r IH]; simpl.
  - rewrite group_get_cons. by case_bool_decide.
  - destruct (decide (m = source v)) as [Em|Hne].
    + rewrite (bool_decide_eq_true_2 _ Em), !group_get_cons.
      repeat case_bool_decide; subst; done.
    + rewrite (bool_decide_eq_false_2 _ Hne), !group_get_cons, IH.
      repeat case_bool_decide; subst; done.
Qed.

Lemma group_insert_keys (v : video) (g : list (string * list video)) (n : string) :
  n ∈ map fst (group_insert v g) <-> n = source v \/ n ∈ map fst g.
Proof.
  induction g as [|[m vs] r IH]; simpl.
  - rewrite list_elem_of_singleton. split; [by left|]. intros [H|H]; [done|inversion H].
  - case_bool_decide as Em; simpl; rewrite !elem_of_cons.
    + rewrite <- Em. tauto.
    + rewrite IH. tauto.
Qed.

Lemma group_insert_nodup (v : video) (g : list (string * list video)) :
  NoDup (map fst g) -> NoDup (map fst (group_insert v g)).
Proof.
  induction g as [|[m vs] r IH]; simpl; intros Hnd.
  - apply NoDup_singleton.
  - apply NoDup_cons in Hnd as [Hm Hr]. case_bool_decide as Em; simpl.
    + by apply NoDup_cons.
    + apply NoDup_cons. split; [|by apply IH].
      rewrite group_insert_keys. intros [H|H]; [by apply Em|done].
Qed.

Lemma group_by_source_from (vs : list video) (g : list (string * list video)) (n : string) :
  group_get (fold_left (fun g v => group_insert v g) vs g) n
  = group_get g n ++ filter (fun v => source v = n) vs.
Proof.
  revert g. induction vs as [|v vs IH]; intros g; simpl; [by rewrite app_nil_r|].
  rewrite IH, group_insert_get, filter_cons.
  case_bool_decide as E; case_decide; try done. by rewrite <- app_assoc.
Qed.

Lemma group_by_source_keys_from (vs : list video) (g : list (string * list video)) :
  NoDup (map fst g) ->
  NoDup (map fst (fold_left (fun g v => group_insert v g) vs g)) /\
  (forall n, n ∈ map fst (fold_left (fun g v => group_insert v g) vs g)
             <-> n ∈ map fst g \/ n ∈ map source vs).
Proof.
  revert g. induction vs as [|v vs IH]; intros g Hnd; simpl.
  - split; [done|]. intros n. split; [by left|]. intros [H|H]; [done|inversion H].
  - destruct (IH (group_insert v g) (group_insert_nodup v g Hnd)) as [H1 H2].
    split; [exact H1|]. intros n. rewrite H2, group_insert_keys, elem_of_cons. tauto.
Qed.

(** Each source's group holds exactly that source's videos of the batch,
    in batch order; every source of the batch is a key, once. *)
Theorem group_by_source_partition (vs : list video) :
  (forall n, group_get (group_by_source vs) n = filter (fun v => source v = n) vs) /\
  NoDup (map fst (group_by_source vs)) /\
  (forall n, n ∈ map fst (group_by_source vs) <-> n ∈ map source vs).
Proof.
  destruct (group_by_source_keys_from vs [] (NoDup_nil_2)) as [Hnd Hk].
  split; [|split; [exact Hnd|]].
  - intros n. unfold group_by_source. by rewrite group_by_source_from.
  - intros n. unfold group_by_source. rewrite Hk. split; [intros [H|H]; [inversion H|done]|by right].
Qed.

(** ** Watermark updates of a poll *)

Lemma dedup_from_nodup (seen : gset string) (l : list string) :
  NoDup (dedup_from seen l) /\ (forall x, x ∈ dedup_from seen l -> x ∉ seen).
Proof.
  revert seen. induction l as [|y l IH]; intros seen; simpl.
  - split; [constructor|]. intros x Hx. inversion Hx.
  - case_bool_decide as Hy; [apply IH|].
    destruct (IH ({[y]} ∪ seen)) as [Hnd Hout]. split.
    + apply NoDup_cons. split; [|exact Hnd]. intros Hin. apply (Hout y Hin). set_solver.
    + intros x Hx. apply elem_of_cons in Hx as [->|Hx]; [done|].
      specialize (Hout x Hx). set_solver.
Qed.

Lemma merge_ids_ok (new_ids existing : list string) :
  NoDup (merge_ids WATERMARK_K new_ids existing) /\
  (length (merge_ids WATERMARK_K new_ids existing) <= WATERMARK_K)%nat.
Proof.
  unfold merge_ids. split.
  - eapply sublist_NoDup; [|apply sublist_take]. apply dedup_from_nodup.
  - rewrite length_take. lia.
Qed.

Lemma update_source_watermark_ok now wm name cv :
  wm_ok wm -> wm_ok (update_source_watermark now wm name cv).
Proof.
  intros H. unfold update_source_watermark. destruct (last cv); [|exact H].
  unfold record_new_ids. apply map_Forall_insert_2; [|exact H]. simpl. apply merge_ids_ok.
Qed.

(** Every watermark id list the polls write holds no id twice and at most
    five ids: the world, newspaper and Yemen watermark updates keep this
    for every record of the table. *)
Theorem watermark_table_invariant now wm :
  wm_ok wm ->
  (forall groups, wm_ok (update_watermarks now wm groups)) /\
  (forall channels groups, wm_ok (update_watermarks_yemen now wm channels groups)).
Proof.
  intros H. split.
  - intros groups. unfold update_watermarks. revert wm H.
    induction groups as [|g gs IH]; intros wm H; simpl; [exact H|].
    apply IH, update_source_watermark_ok, H.
  - intros channels groups. unfold update_watermarks_yemen. revert wm H.
    induction channels as [|c cs IH]; intros wm H; simpl; [exact H|].
    apply IH, update_source_watermark_ok, H.
Qed.

(** ** Order of the combined batch *)

Lemma insert_desc_sorted (x : video) (l : list video) :
  Sorted (fun a b => (published b <= published a)%Z) l ->
  Sorted (fun a b => (published b <= published a)%Z) (insert_desc x l).
Proof.
  induction 1 as [|y l Hs IH Hhd]; simpl; [by repeat constructor|].
  case_eq (published x <=? published y)%Z; intros E.
  - apply Z.leb_le in E. constructor; [exact IH|].
    destruct l as [|z l]; simpl; [constructor; lia|].
    inversion Hhd; subst.
    destruct (published x <=? published z)%Z; constructor; lia.
  - apply Z.leb_gt in E. constructor; [by constructor|]. constructor. lia.
Qed.

Lemma sort_published_desc_sorted (l : list video) :
  Sorted (fun a b => (published b <= published a)%Z) (sort_published_desc l).
Proof.
  unfold sort_published_desc.
  assert (H : forall acc, Sorted (fun a b => (published b <= published a)%Z) acc ->
            Sorted (fun a b => (published b <= published a)%Z)
              (fold_left (fun acc x => insert_desc x acc) l acc)).
  { induction l as [|x l IH]; intros acc Hacc; simpl; [done|].
    apply IH. by apply insert_desc_sorted. }
  apply H. constructor.
Qed.

(** The combined batch of every loop is ordered newest first: each video
    is published no earlier than the next one. *)
Theorem combined_batch_newest_first :
  (forall tr channels net wm,
     Sorted (fun a b => (published b <= published a)%Z)
       (fetch_all_youtube_channels tr channels net wm)) /\
  (forall tr channels net wm,
     Sorted (fun a b => (published b <= published a)%Z)
       (fetch_all_yemen_youtube_channels tr channels net wm)) /\
  (forall tr gid now sources net wm,
     Sorted (fun a b => (published b <= published a)%Z)
       (fetch_all_newspaper_sources tr gid now sources net wm)).
Proof.
  split; [|split]; intros; apply sort_published_desc_sorted.
Qed.

(** ** What the adapters return *)

Lemma elem_of_prefix_before {A} (stop : A -> bool) (l : list A) (x : A) :
  x ∈ prefix_before stop l -> stop x = false.
Proof.
  induction l as [|y l IH]; simpl; [intros H; inversion H|].
  destruct (stop y) eqn:E; [intros H; inversion H|].
  intros H. apply elem_of_cons in H as [->|H]; [exact E|exact (IH H)].
Qed.

(** With a non-empty watermark list, no adapter returns an item whose id
    is in the list: neither the yt-dlp listing nor its RSS fallback, nor
    the newspaper adapter. *)
Theorem adapters_skip_known_ids :
  (forall tr name (ids : list string) is_playlist res x,
     ids <> [] ->
     x ∈ map video_id (fetch_youtube_channel_videos tr name (Some ids) is_playlist res) ->
     x ∉ ids) /\
  (forall tr gid now name image (ids : list string) links x,
     ids <> [] ->
     x ∈ map video_id (fetch_newspaper_articles tr gid now name image (Some ids) links) ->
     x ∉ ids).
Proof.
  split.
  - intros tr name ids is_playlist res x Hne Hx. unfold fetch_youtube_channel_videos in Hx.
    destruct res as [entries|[rss|]].
    + rewrite scan_yt_entries_watermark in Hx by done. simpl in Hx.
      apply list_elem_of_omap in Hx as [oe [Hin Hk]].
      apply elem_of_prefix_before in Hin. unfold yt_kept_id in Hk. unfold yt_known in Hin.
      destruct oe as [e|]; [|discriminate].
      destruct (bad_title _); [discriminate|]. rewrite Hk in Hin.
      by apply bool_decide_eq_false_1 in Hin.
    + destruct is_playlist; [inversion Hx|].
      rewrite scan_rss_entries_watermark in Hx by done. simpl in Hx.
      apply list_elem_of_omap in Hx as [e [Hin Hk]].
      apply elem_of_prefix_before in Hin. unfold rss_known in Hin. rewrite Hk in Hin.
      by apply bool_decide_eq_false_1 in Hin.
    + destruct is_playlist; inversion Hx.
  - intros tr gid now name image ids links x Hne Hx. unfold fetch_newspaper_articles in Hx.
    rewrite scan_articles_watermark in Hx by done. simpl in Hx.
    apply list_elem_of_omap in Hx as [a [Hin Hk]].
    apply elem_of_prefix_before in Hin. unfold article_kept_id in Hk. unfold article_known in Hin.
    destruct (_ || _); [discriminate|]. injection Hk as <-.
    by apply bool_decide_eq_false_1 in Hin.
Qed.

Lemma py_len_py_prefix (n : nat) (s : string) : (py_len (py_prefix n s) <= n)%nat.
Proof.
  revert n. induction s as [|c r IH]; intros n; simpl; [lia|].
  destruct (is_utf8_cont c) eqn:E; simpl.
  - rewrite E. specialize (IH n). lia.
  - destruct n as [|n]; simpl; [lia|]. rewrite E. specialize (IH n). lia.
Qed.

Lemma scan_yt_entries_forall (P : video -> Prop) tr name known entries acc :
  (forall vid t p, vid <> "" ->
     P (mk_video vid (tr t) ("https://www.youtube.com/watch?v=" +:+ vid)
          ("https://img.youtube.com/vi/" +:+ vid +:+ "/maxresdefault.jpg")
          name p (yt_summary tr name))) ->
  Forall P acc -> Forall P (scan_yt_entries tr name known entries acc).
Proof.
  intros HP. revert acc. induction entries as [|oe entries IH]; intros acc Hacc;
    cbn [scan_yt_entries]; [exact Hacc|].
  destruct oe as [e|]; [|by apply IH].
  destruct (e_id e) as [vid|]; [|by apply IH].
  case_bool_decide as Hv; [by apply IH|].
  destruct (bool_decide (known ≠ ∅) && bool_decide (vid ∈ known)); [exact Hacc|].
  cbv zeta. destruct (bad_title _); [by apply IH|].
  assert (Hacc' : Forall P (acc ++ [mk_video vid (tr (default "No Title" (e_title e)))
             ("https://www.youtube.com/watch?v=" +:+ vid)
             ("https://img.youtube.com/vi/" +:+ vid +:+ "/maxresdefault.jpg")
             name (e_published e) (yt_summary tr name)]))
    by (apply Forall_app; split; [exact Hacc|constructor; [by apply HP|constructor]]).
  destruct (_ && _); [exact Hacc'|by apply IH].
Qed.

Lemma scan_rss_entries_forall (P : video -> Prop) tr name known entries acc :
  (forall vid t l p,
     P (mk_video vid (tr t) l ("https://img.youtube.com/vi/" +:+ vid +:+ "/maxresdefault.jpg")
          name p (yt_summary tr name))) ->
  Forall P acc -> Forall P (scan_rss_entries tr name known entries acc).
Proof.
  intros HP. revert acc. induction entries as [|e entries IH]; intros acc Hacc;
    cbn [scan_rss_entries]; [exact Hacc|].
  destruct (r_id e) as [vid|]; [|by apply IH].
  destruct (bool_decide (known ≠ ∅) && bool_decide (vid ∈ known)); [exact Hacc|].
  cbv zeta.
  assert (Hacc' : Forall P (acc ++ [mk_video vid (tr (default "No Title" (r_title e)))
             (default ("https://www.youtube.com/watch?v=" +:+ vid) (r_link e))
             ("https://img.youtube.com/vi/" +:+ vid +:+ "/maxresdefault.jpg")
             name (r_published e) (yt_summary tr name)]))
    by (apply Forall_app; split; [exact Hacc|constructor; [apply HP|constructor]]).
  destruct (_ && _); [exact Hacc'|by apply IH].
Qed.

Lemma scan_rss_entries_length tr name known entries acc :
  (length (scan_rss_entries tr name known entries acc) <= length acc + length entries)%nat.
Proof.
  revert acc. induction entries as [|e entries IH]; intros acc; cbn [scan_rss_entries length]; [lia|].
  destruct (r_id e) as [vid|]; [|specialize (IH acc); lia].
  destruct (_ && _); [lia|]. cbv zeta.
  destruct (_ && _); rewrite ?length_app; simpl;
    [lia|specialize (IH (acc ++ [mk_video vid (tr (default "No Title" (r_title e)))
             (default ("https://www.youtube.com/watch?v=" +:+ vid) (r_link e))
             ("https://img.youtube.com/vi/" +:+ vid +:+ "/maxresdefault.jpg")
             name (r_published e) (yt_summary tr name)])); rewrite length_app in IH; simpl in IH; lia].
Qed.

Lemma scan_articles_forall (P : video -> Prop) tr gid now name image known links acc :
  (forall a, P (mk_video (gid (al_url a)) (py_prefix 500 (tr (al_title a))) (al_url a) image name now
                 (tr (newspaper_summary name)))) ->
  Forall P acc -> Forall P (scan_articles tr gid now name image known links acc).
Proof.
  intros HP. revert acc. induction links as [|a links IH]; intros acc Hacc;
    cbn [scan_articles]; [exact Hacc|].
  destruct (_ && _); [exact Hacc|].
  destruct (_ || _); [by apply IH|]. cbv zeta.
  assert (Hacc' : Forall P (acc ++ [mk_video (gid (al_url a)) (py_prefix 500 (tr (al_title a)))
             (al_url a) image name now (tr (newspaper_summary name))]))
    by (apply Forall_app; split; [exact Hacc|constructor; [apply HP|constructor]]).
  destruct (_ && _); [exact Hacc'|by apply IH].
Qed.

Lemma scan_articles_length tr gid now name image known links acc :
  (length (scan_articles tr gid now name image known links acc) <= length acc + length links)%nat.
Proof.
  revert acc. induction links as [|a links IH]; intros acc; cbn [scan_articles length]; [lia|].
  destruct (_ && _); [lia|].
  destruct (_ || _); [specialize (IH acc); lia|]. cbv zeta.
  destruct (_ && _); rewrite ?length_app; simpl;
    [lia|specialize (IH (acc ++ [mk_video (gid (al_url a)) (py_prefix 500 (tr (al_title a)))
             (al_url a) image name now (tr (newspaper_summary name))]));
     rewrite length_app in IH; simpl in IH; lia].
Qed.

(** The shape of what the YouTube adapter returns: every video carries the
    channel's name as source, the thumbnail URL built from its id and the
    summary "فيديو جديد من <channel>"; a video of the yt-dlp listing has a
    non-empty id and the watch URL of that id as link.  The RSS fallback
    returns at most 50 videos, and a playlist whose extraction fails gives
    none. *)
Theorem youtube_adapter_output_shape :
  (forall tr name last_ids is_playlist res,
     Forall (fun v => source v = name
                      /\ image_url v = "https://img.youtube.com/vi/" +:+ video_id v +:+ "/maxresdefault.jpg"
                      /\ summary v = yt_summary tr name)
       (fetch_youtube_channel_videos tr name last_ids is_playlist res)) /\
  (forall tr name last_ids is_playlist entries,
     Forall (fun v => video_id v <> "" /\ link v = "https://www.youtube.com/watch?v=" +:+ video_id v)
       (fetch_youtube_channel_videos tr name last_ids is_playlist (Extracted entries))) /\
  (forall tr name last_ids is_playlist rss,
     (length (fetch_youtube_channel_videos tr name last_ids is_playlist (ExtractError rss)) <= 50)%nat) /\
  (forall tr name last_ids rss,
     fetch_youtube_channel_videos tr name last_ids true (ExtractError rss) = []).
Proof.
  split; [|split; [|split]].
  - intros tr name last_ids is_playlist res. unfold fetch_youtube_channel_videos.
    destruct res as [entries|[rss|]].
    + apply scan_yt_entries_forall; [|constructor]. intros. simpl. done.
    + destruct is_playlist; [constructor|].
      apply scan_rss_entries_forall; [|constructor]. intros. simpl. done.
    + destruct is_playlist; constructor.
  - intros tr name last_ids is_playlist entries. unfold fetch_youtube_channel_videos.
    apply scan_yt_entries_forall; [|constructor]. intros. simpl. done.
  - intros tr name last_ids is_playlist rss. unfold fetch_youtube_channel_videos.
    destruct is_playlist; [simpl; lia|]. destruct rss as [rss|]; [|simpl; lia].
    etransitivity; [apply scan_rss_entries_length|]. rewrite length_take. cbn [length]. lia.
  - reflexivity.
Qed.

(** The shape of what the newspaper adapter returns: at most 50 articles,
    each with the md5-based id of its own URL as id, a title of at most 500
    characters, the source's name and the page's image. *)
Theorem newspaper_adapter_output_shape tr gid now name image last_ids links :
  (length (fetch_newspaper_articles tr gid now name image last_ids links) <= 50)%nat /\
  Forall (fun v => video_id v = gid (link v) /\ (py_len (title v) <= 500)%nat
                   /\ source v = name /\ image_url v = image)
    (fetch_newspaper_articles tr gid now name image last_ids links).
Proof.
  unfold fetch_newspaper_articles. split.
  - etransitivity; [apply scan_articles_length|]. rewrite length_take. cbn [length]. lia.
  - apply scan_articles_forall; [|constructor]. intros a. simpl.
    split; [done|split; [apply py_len_py_prefix|done]].
Qed.

(** ** What the loops store *)

Lemma persist_all_found_forall (Q : news_row -> Prop) first_run ty commit_fails s vs :
  (forall v rid, v ∈ vs -> Q (mk_news_row rid (title v) (link v) (summary v) (published v) (source v))) ->
  Forall Q (ps_found s) -> Forall Q (ps_found (persist_all first_run ty commit_fails s vs)).
Proof.
  unfold persist_all. revert s. induction vs as [|v vs IH]; intros s HQ Hs; simpl; [exact Hs|].
  apply IH; [intros; apply HQ; by right|]. unfold persist_one.
  destruct (link_exists _ _); [exact Hs|]. destruct (commit_fails _); [exact Hs|].
  simpl. apply Forall_app. split; [exact Hs|]. constructor; [apply HQ; by left|constructor].
Qed.

Lemma combine_yemen_results_elem (rs : list task_result) (v : video) :
  v ∈ combine_yemen_results rs ->
  exists v0, is_yemen_related (title v0) = true /\ v = yemen_relabel v0.
Proof.
  unfold combine_yemen_results. intros Hv.
  apply list_elem_of_In in Hv.
  apply (Permutation_in _ (sort_published_desc_perm _)) in Hv.
  apply in_concat in Hv as [l [Hl Hv]]. apply in_map_iff in Hl as [r [<- _]].
  apply list_elem_of_In, list_elem_of_fmap in Hv as [v0 [-> Hv0]].
  apply list_elem_of_filter in Hv0 as [Hy _]. exists v0. split; [|reflexivity].
  revert Hy. destruct (is_yemen_related (title v0)); done.
Qed.

(** Every item the Yemen loop stores and broadcasts has a title that passes
    [is_yemen_related] and the summary "فيديو جديد من <source> - أخبار اليمن". *)
Theorem yemen_loop_stores_only_yemen_items tr channels net commit_fails first_run now st :
  Forall (fun r => is_yemen_related (row_title r) = true
                   /\ row_summary r = "فيديو جديد من " +:+ row_source r +:+ " - أخبار اليمن")
    (pr_broadcasts (fetch_yemen_youtube_feeds_cycle tr channels net commit_fails first_run now st)).
Proof.
  unfold fetch_yemen_youtube_feeds_cycle, ingest. simpl.
  apply persist_all_found_forall; [|constructor].
  intros v rid Hv. apply combine_yemen_results_elem in Hv as [v0 [Hy ->]]. simpl. done.
Qed.

Lemma next_row_id_gt (rows : list news_row) (r : news_row) :
  r ∈ rows -> (row_id r < next_row_id rows)%Z.
Proof.
  unfold next_row_id. induction rows as [|r' rows IH]; intros Hr; [inversion Hr|].
  simpl. apply elem_of_cons in Hr as [->|Hr]; [lia|]. specialize (IH Hr). lia.
Qed.

Lemma persist_all_ids_nodup first_run ty commit_fails s vs :
  NoDup (map row_id (ps_rows s)) ->
  NoDup (map row_id (ps_rows (persist_all first_run ty commit_fails s vs))).
Proof.
  unfold persist_all. revert s. induction vs as [|v vs IH]; intros s Hs; simpl; [exact Hs|].
  apply IH. unfold persist_one.
  destruct (link_exists _ _); [exact Hs|]. destruct (commit_fails _); [exact Hs|].
  simpl. rewrite map_app. apply NoDup_app. split; [exact Hs|]. split; [|apply NoDup_singleton].
  intros x Hx Hx'. apply list_elem_of_singleton in Hx'. subst x.
  apply list_elem_of_fmap in Hx as [r [Hid Hr]]. apply next_row_id_gt in Hr. simpl in Hid. lia.
Qed.

Lemma persist_all_ids_fresh first_run ty commit_fails s vs :
  Forall (fun r => forall r0, r0 ∈ ps_rows s -> (row_id r0 < row_id r)%Z)
    (ps_found (persist_all first_run ty commit_fails (mk_persist_state (ps_rows s) [] (ps_calls s)) vs)).
Proof.
  set (P := fun (t : persist_state) =>
              (forall r0, r0 ∈ ps_rows s -> r0 ∈ ps_rows t) /\
              Forall (fun r => forall r0, r0 ∈ ps_rows s -> (row_id r0 < row_id r)%Z) (ps_found t)).
  enough (H : forall t, P t -> P (persist_all first_run ty commit_fails t vs)).
  { apply H. split; [done|constructor]. }
  unfold persist_all. induction vs as [|v vs IH]; intros t [Hsub Hf]; simpl; [done|].
  apply IH. unfold persist_one.
  destruct (link_exists _ _); [done|]. destruct (commit_fails _); [done|]. simpl. split.
  - intros r0 Hr0. apply elem_of_app. left. by apply Hsub.
  - apply Forall_app. split; [exact Hf|]. constructor; [|constructor].
    intros r0 Hr0. simpl. apply next_row_id_gt, Hsub, Hr0.
Qed.

(** Row ids stay unique: a poll gives every stored item an id larger than
    the id of every row already in the table, so a table with distinct ids
    keeps distinct ids. *)
Theorem poll_row_ids_unique first_run ty commit_fails update_wm st videos :
  Forall (fun r => forall r0, r0 ∈ cs_news st -> (row_id r0 < row_id r)%Z)
    (pr_broadcasts (ingest first_run ty commit_fails update_wm st videos)) /\
  (NoDup (map row_id (cs_news st)) ->
   NoDup (map row_id (cs_news (pr_state (ingest first_run ty commit_fails update_wm st videos))))).
Proof.
  split.
  - unfold ingest. simpl. apply (persist_all_ids_fresh first_run ty commit_fails
                                   (mk_persist_state (cs_news st) [] [])).
  - intros H. unfold ingest. simpl. by apply persist_all_ids_nodup.
Qed.

(** ** Translation *)

Lemma prefix_app_l (n a b : string) : String.prefix n a = true -> String.prefix n (a +:+ b) = true.
Proof.
  revert a. induction n as [|c n IH]; intros a H; [destruct (a +:+ b); reflexivity|].
  destruct a as [|c' a]; [discriminate|]. simpl in *.
  destruct (Ascii.ascii_dec _ _); [by apply IH|discriminate].
Qed.

Lemma py_in_app_l (n a b : string) : py_in n a = true -> py_in n (a +:+ b) = true.
Proof.
  induction a as [|c a IH]; intros H.
  - simpl in H. apply orb_true_iff in H as [H|H]; [|discriminate].
    destruct n; [destruct b; reflexivity|discriminate].
  - change (String.prefix n (String c a) || py_in n a = true) in H.
    change (String.prefix n (String c a +:+ b) || py_in n (a +:+ b) = true).
    apply orb_true_iff in H as [H|H].
    + apply orb_true_iff. left. by apply prefix_app_l.
    + apply orb_true_iff. right. by apply IH.
Qed.

Lemma has_arabic_letter_app_l (a b : string) :
  has_arabic_letter a = true -> has_arabic_letter (a +:+ b) = true.
Proof.
  unfold has_arabic_letter. intros H. apply existsb_exists in H as [c [Hc Hin]].
  apply existsb_exists. exists c. split; [exact Hc|]. by apply py_in_app_l.
Qed.

Lemma translate_keeps_arabic (google_translate : string -> option string) (text : string) :
  has_arabic_letter text = true -> translate_to_arabic_impl google_translate text = text.
Proof. intros H. unfold translate_to_arabic_impl. by rewrite H, orb_true_r. Qed.

(** The summaries of new videos and articles never reach the translation
    service: they start with Arabic letters, so [translate_to_arabic]
    returns them as they are, whatever the service would answer. *)
Theorem summaries_skip_translation (google_translate : string -> option string) (name : string) :
  yt_summary (translate_to_arabic_impl google_translate) name = "فيديو جديد من " +:+ name /\
  translate_to_arabic_impl google_translate (newspaper_summary name) = newspaper_summary name.
Proof.
  split.
  - unfold yt_summary. apply translate_keeps_arabic, has_arabic_letter_app_l. vm_compute. reflexivity.
  - apply translate_keeps_arabic. unfold newspaper_summary.
    apply has_arabic_letter_app_l. vm_compute. reflexivity.
Qed.

(** ** Clustering a new item into event threads *)

Lemma insert_cand_desc_perm (x : candidate) (l : list candidate) :
  Permutation (insert_cand_desc x l) (x :: l).
Proof.
  induction l as [|y l IH]; simpl; [done|].
  destruct (cand_published x <=? cand_published y)%Z; [|done].
  rewrite IH. apply perm_swap.
Qed.

Lemma cands_newest_first_perm (l : list candidate) : Permutation (cands_newest_first l) l.
Proof.
  unfold cands_newest_first.
  assert (H : forall acc, Permutation (fold_left (fun acc x => insert_cand_desc x acc) l acc)
                            (l ++ acc)).
  { induction l as [|x l IH]; intros acc; simpl; [done|].
    rewrite IH, insert_cand_desc_perm. symmetry. apply Permutation_middle. }
  rewrite H. by rewrite app_nil_r.
Qed.

Lemma insert_row_desc_perm (x : news_row) (l : list news_row) :
  Permutation (insert_row_desc x l) (x :: l).
Proof.
  induction l as [|y l IH]; simpl; [done|].
  destruct (row_published x <=? row_published y)%Z; [|done].
  rewrite IH. apply perm_swap.
Qed.

Lemma rows_newest_first_perm (l : list news_row) : Permutation (rows_newest_first l) l.
Proof.
  unfold rows_newest_first.
  assert (H : forall acc, Permutation (fold_left (fun acc x => insert_row_desc x acc) l acc)
                            (l ++ acc)).
  { induction l as [|x l IH]; intros acc; simpl; [done|].
    rewrite IH, insert_row_desc_perm. symmetry. apply Permutation_middle. }
  rewrite H. by rewrite app_nil_r.
Qed.

Lemma row_candidates_length kind ty nid rows :
  (length (row_candidates kind ty nid rows) <= 150)%nat.
Proof.
  unfold row_candidates. rewrite length_map.
  etransitivity; [apply length_filter|]. rewrite length_take. lia.
Qed.

Lemma row_candidates_elem kind ty nid rows (c : candidate) :
  c ∈ row_candidates kind ty nid rows ->
  exists n, n ∈ rows /\ ~ (ty = kind /\ row_id n = nid) /\
            cand_id c = kind +:+ ":" +:+ pretty (row_id n).
Proof.
  unfold row_candidates. intros Hc.
  apply list_elem_of_In, in_map_iff in Hc as [n [<- Hn]].
  apply list_elem_of_In, list_elem_of_filter in Hn as [Hnot Hn].
  exists n. split; [|split; [exact Hnot|reflexivity]].
  eapply elem_of_sublist in Hn; [|apply sublist_take].
  by rewrite rows_newest_first_perm in Hn.
Qed.

Lemma parse_candidate_id (py_int : string -> option Z) (ty kind : string) (z : Z) :
  kind = "world" \/ kind = "newspaper" ->
  parse_related py_int ty (RelStr (kind +:+ ":" +:+ pretty z)) =
  option_map (fun z' => (kind, z')) (py_int (pretty z)).
Proof. intros [-> | ->]; reflexivity. Qed.

(** Clustering a non-Yemen item calls the reasoning service at most once.
    The request carries the item's title, summary and category, and at
    most 300 candidate ids, so the service's [[:300]] cut never drops one.
    Each candidate id names a stored world or newspaper row other than the
    item itself, and the thread loop parses it back to that row's table and
    to [int] of that row's decimal id. *)
Theorem timeline_request_candidates py_int ai world_rows newspaper_rows st nid title summary ty :
  let st' := process_event_timeline py_int ai world_rows newspaper_rows st nid title summary ty in
  ts_ai_calls st' = ts_ai_calls st \/
  exists req,
    ts_ai_calls st' = ts_ai_calls st ++ [req] /\
    req_title req = title /\ req_summary req = summary /\ req_news_type req = ty /\
    (length (req_candidates req) <= 300)%nat /\
    forall c, c ∈ req_candidates req ->
      exists kind n,
        ((kind = "world" /\ n ∈ world_rows) \/ (kind = "newspaper" /\ n ∈ newspaper_rows)) /\
        ~ (ty = kind /\ row_id n = nid) /\
        parse_related py_int ty (RelStr c) =
          option_map (fun z => (kind, z)) (py_int (pretty (row_id n))).
Proof.
  intros st'. unfold st', process_event_timeline.
  case_bool_decide; [by left|].
  set (comb := app (row_candidates "world" ty nid world_rows)
                   (row_candidates "newspaper" ty nid newspaper_rows)).
  assert (Hlen : (length comb <= 300)%nat).
  { unfold comb. rewrite length_app.
    pose proof (row_candidates_length "world" ty nid world_rows).
    pose proof (row_candidates_length "newspaper" ty nid newspaper_rows). lia. }
  assert (Hel : forall c, c ∈ map cand_id (cands_newest_first comb) ->
      exists kind n,
        ((kind = "world" /\ n ∈ world_rows) \/ (kind = "newspaper" /\ n ∈ newspaper_rows)) /\
        ~ (ty = kind /\ row_id n = nid) /\
        parse_related py_int ty (RelStr c) =
          option_map (fun z => (kind, z)) (py_int (pretty (row_id n)))).
  { intros c Hc. apply list_elem_of_In, in_map_iff in Hc as [cd [<- Hcd]].
    apply list_elem_of_In in Hcd. rewrite cands_newest_first_perm in Hcd.
    unfold comb in Hcd. apply elem_of_app in Hcd as [Hcd|Hcd].
    - apply row_candidates_elem in Hcd as [n [Hn [Hnot ->]]].
      exists "world", n. split; [by left|]. split; [exact Hnot|].
      apply parse_candidate_id. by left.
    - apply row_candidates_elem in Hcd as [n [Hn [Hnot ->]]].
      exists "newspaper", n. split; [by right|]. split; [exact Hnot|].
      apply parse_candidate_id. by right. }
  destruct comb as [|c0 cs] eqn:Ec; [by left|].
  rewrite <- Ec in Hlen, Hel |- *. right. cbv zeta.
  eexists. split.
  { match goal with |- context [if ?b then _ else _] => destruct b end; reflexivity. }
  simpl. split; [done|]. split; [done|]. split; [done|].
  split; [|exact Hel].
  rewrite length_map. by rewrite cands_newest_first_perm.
Qed.

Lemma add_threads_fresh py_int committed nid ty res :
  Forall (fun t => et_news_id t = nid /\ et_news_type t = ty /\
                   et_thread_title t = thread_title res /\
                   Forall (fun c => thread_key c <> thread_key t) committed)
    (add_threads py_int committed nid ty res).
Proof.
  unfold add_threads. apply fold_left_Forall; [|constructor].
  intros pending rid Hp. destruct (parse_related py_int ty rid) as [[rty rnid]|]; [|exact Hp].
  destruct (existsb _ committed) eqn:E; [exact Hp|].
  apply Forall_app. split; [exact Hp|]. constructor; [|constructor].
  simpl. split; [done|]. split; [done|]. split; [done|].
  apply Forall_forall. intros c Hc Hkey. unfold thread_key in Hkey. simpl in Hkey.
  injection Hkey as H1 H2 H3 H4.
  assert (Ht : existsb (fun t => bool_decide (et_news_id t = nid /\ et_related_news_id t = rnid
                                             /\ et_news_type t = ty
                                             /\ et_related_news_type t = Some rty))
                 committed = true).
  { apply existsb_exists. exists c. split; [by apply list_elem_of_In|]. by apply bool_decide_eq_true_2. }
  by rewrite E in Ht.
Qed.

(** Clustering only appends thread rows, and only after a call to the
    reasoning service.  Every appended row has the clustered item as its
    primary item, carries the service's non-empty thread title, and has a
    key (primary id, related id, category, related category) that no row
    stored before the call has. *)
Theorem timeline_appends_fresh_threads py_int ai world_rows newspaper_rows st nid title summary ty :
  let st' := process_event_timeline py_int ai world_rows newspaper_rows st nid title summary ty in
  exists new,
    ts_threads st' = ts_threads st ++ new /\
    Forall (fun t => et_news_id t = nid /\ et_news_type t = ty /\ et_thread_title t <> "" /\
                     Forall (fun c => thread_key c <> thread_key t) (ts_threads st)) new /\
    (new <> [] -> length (ts_ai_calls st') = S (length (ts_ai_calls st))).
Proof.
  intros st'. unfold st', process_event_timeline.
  case_bool_decide; [exists []; rewrite app_nil_r; split; [done|]; split; [constructor|done]|].
  destruct (app _ _) as [|c0 cs]; [exists []; rewrite app_nil_r; split; [done|]; split; [constructor|done]|].
  cbv zeta.
  match goal with |- context [ai ?r] => set (req := r); set (res := ai req) end.
  destruct (bool_decide (thread_title res <> "")) eqn:Et; simpl;
    [destruct (bool_decide (related_ids res <> [])) eqn:Er; simpl|].
  - apply bool_decide_eq_true_1 in Et.
    eexists. split; [reflexivity|]. split.
    + eapply Forall_impl; [apply add_threads_fresh|]. simpl.
      intros t [H1 [H2 [H3 H4]]]. rewrite H3. done.
    + intros _. rewrite length_app. simpl. lia.
  - exists []. rewrite app_nil_r. split; [done|]. split; [constructor|done].
  - exists []. rewrite app_nil_r. split; [done|]. split; [constructor|done].
Qed.


(** ** Both ends of a thread row *)

Lemma set_add_mono (p q : Z * string) (s : list (Z * string)) : q ∈ s -> q ∈ set_add p s.
Proof. intros Hq. unfold set_add. case_bool_decide; [exact Hq|]. apply elem_of_app. by left. Qed.

Lemma set_add_in (p : Z * string) (s : list (Z * string)) : p ∈ set_add p s.
Proof. unfold set_add. case_bool_decide; [done|]. apply elem_of_app. right. by left. Qed.

Lemma fold_set_add_mono {A} (f : A -> Z * string) (ts : list A) (s : list (Z * string)) q :
  q ∈ s -> q ∈ fold_left (fun s t => set_add (f t) s) ts s.
Proof.
  revert s. induction ts as [|t ts IH]; intros s Hq; simpl; [exact Hq|].
  apply IH, set_add_mono, Hq.
Qed.

Lemma fold_set_add_in {A} (f : A -> Z * string) (ts : list A) (s : list (Z * string)) t :
  t ∈ ts -> f t ∈ fold_left (fun s t => set_add (f t) s) ts s.
Proof.
  revert s. induction ts as [|t' ts IH]; intros s Ht; simpl; [by apply elem_of_nil in Ht|].
  apply elem_of_cons in Ht as [->|Ht].
  - apply fold_set_add_mono, set_add_in.
  - by apply IH.
Qed.

Lemma gather_in_timeline world yemen newspaper threads ty nid it :
  it ∈ gather_related world yemen newspaper threads ty nid ->
  it ∈ resp_related_news (get_event_timeline world yemen newspaper threads ty nid).
Proof.
  intros Hit. unfold get_event_timeline. case_bool_decide as Hnil.
  - destruct Hnil as [Hfw Hrv]. unfold gather_related in Hit.
    rewrite Hfw, Hrv in Hit. simpl in Hit. by apply elem_of_nil in Hit.
  - simpl. by rewrite items_oldest_first_perm.
Qed.

(** A stored thread row with a (non-empty) related category links its two
    items both ways: the timeline of the primary item lists the related
    item, and the timeline of the related item lists the primary item,
    whenever those items are found in their tables. *)
Theorem thread_row_links_both_ends world yemen newspaper threads (t : event_thread) (r : string) :
  t ∈ threads -> et_related_news_type t = Some r -> r <> "" ->
  (forall it, lookup_related world yemen newspaper (et_related_news_id t, r) = Some it ->
     it ∈ resp_related_news (get_event_timeline world yemen newspaper threads
                               (et_news_type t) (et_news_id t))) /\
  (forall it, lookup_related world yemen newspaper (et_news_id t, et_news_type t) = Some it ->
     it ∈ resp_related_news (get_event_timeline world yemen newspaper threads
                               r (et_related_news_id t))).
Proof.
  intros Ht Hr Hne. split; intros it Hit; apply gather_in_timeline;
    unfold gather_related; apply list_elem_of_omap; eexists; (split; [|exact Hit]).
  - apply fold_set_add_mono.
    assert (Hk : (et_related_news_id t, r) = (et_related_news_id t, related_type_of t)).
    { unfold related_type_of. rewrite Hr. by rewrite bool_decide_eq_false_2. }
    rewrite Hk. apply (fold_set_add_in (fun t => (et_related_news_id t, related_type_of t))).
    unfold forward_threads. apply list_elem_of_filter. split; [done|exact Ht].
  - apply (fold_set_add_in (fun t => (et_news_id t, et_news_type t))).
    unfold reverse_threads. apply list_elem_of_filter. split; [|exact Ht].
    split; [done|]. by left.
Qed.

(** ** WebSocket connections *)

Section ConnectionProofs.

Context {W : Type} `{EqDecision W}.

Lemma list_remove_not_in (w : W) (l : list W) : w ∉ l -> list_remove w l = l.
Proof.
  induction l as [|x l IH]; intros Hw; simpl; [done|].
  rewrite bool_decide_eq_false_2; [|intros ->; apply Hw; by left].
  f_equal. apply IH. intros H. apply Hw. by right.
Qed.

Lemma list_remove_app_not_in (w : W) (l : list W) : w ∉ l -> list_remove w (l ++ [w]) = l.
Proof.
  induction l as [|x l IH]; intros Hw; simpl; [by rewrite bool_decide_eq_true_2|].
  rewrite bool_decide_eq_false_2; [|intros ->; apply Hw; by left].
  f_equal. apply IH. intros H. apply Hw. by right.
Qed.

Lemma list_remove_elem (w x : W) (l : list W) : x <> w -> x ∈ list_remove w l <-> x ∈ l.
Proof.
  intros Hx. induction l as [|y l IH]; simpl; [done|].
  case_bool_decide as E.
  - subst y. rewrite elem_of_cons. split; [by right|]. intros [->|H]; [done|exact H].
  - rewrite !elem_of_cons. by rewrite IH.
Qed.

Lemma list_remove_length (w : W) (l : list W) : w ∈ l -> length (list_remove w l) = pred (length l).
Proof.
  induction l as [|x l IH]; intros Hw; simpl; [by apply elem_of_nil in Hw|].
  case_bool_decide as E; [done|].
  apply elem_of_cons in Hw as [->|Hw]; [done|].
  simpl. rewrite (IH Hw). destruct l; [by apply elem_of_nil in Hw|done].
Qed.

Lemma disconnect_connect_fresh (conns : list W) (w : W) :
  w ∉ conns -> disconnect (connect conns w) w = conns.
Proof.
  intros Hw. unfold disconnect, connect.
  rewrite bool_decide_eq_true_2; [|apply elem_of_app; right; by left].
  by apply list_remove_app_not_in.
Qed.

End ConnectionProofs.

(** [ConnectionManager]: disconnecting a socket that was connected once
    gives back the list as it was before the connect; disconnecting a
    socket not in the list changes nothing; a disconnect removes one
    entry of the socket (the first) and keeps every other socket. *)
Theorem connection_manager_connect_disconnect {W} `{EqDecision W} (conns : list W) (w : W) :
  (w ∉ conns -> disconnect (connect conns w) w = conns /\ disconnect conns w = conns) /\
  (w ∈ conns -> length (disconnect conns w) = pred (length conns)) /\
  (forall x, x <> w -> x ∈ disconnect conns w <-> x ∈ conns).
Proof.
  split; [|split].
  - intros Hw. split; [by apply disconnect_connect_fresh|].
    unfold disconnect. by rewrite bool_decide_eq_false_2.
  - intros Hw. unfold disconnect. rewrite bool_decide_eq_true_2; [|exact Hw].
    by apply list_remove_length.
  - intros x Hx. unfold disconnect. case_bool_decide; [|done]. by apply list_remove_elem.
Qed.

Lemma websocket_loop_continues {W} `{EqDecision W} (w : W) conns pre rest :
  forallb ws_continues pre = true ->
  websocket_loop w conns (pre ++ rest) = websocket_loop w conns rest.
Proof.
  induction pre as [|e pre IH]; intros H; simpl; [done|].
  simpl in H. apply andb_true_iff in H as [He H].
  destruct e as [m|[|]| |]; simpl in He; try discriminate; by apply IH.
Qed.

(** A WebSocket session of a socket not yet connected: while messages and
    answered pings come, the socket stays in the list; a disconnect or an
    error ends the session and gives back the list as it was before; a
    ping that fails ends the session too but leaves the socket in the list
    (the [break] skips both [except] clauses).  Events after the end are
    never read. *)
Theorem websocket_session_outcome {W} `{EqDecision W} (conns : list W) (w : W) pre post :
  w ∉ conns -> forallb ws_continues pre = true ->
  websocket_endpoint conns w pre = (conns ++ [w], true) /\
  websocket_endpoint conns w (pre ++ WsDisconnect :: post) = (conns, false) /\
  websocket_endpoint conns w (pre ++ WsError :: post) = (conns, false) /\
  websocket_endpoint conns w (pre ++ WsTimeout false :: post) = (conns ++ [w], false).
Proof.
  intros Hw Hpre. unfold websocket_endpoint.
  assert (Hd : disconnect (connect conns w) w = conns)
    by (apply disconnect_connect_fresh; exact Hw).
  rewrite !websocket_loop_continues by exact Hpre. simpl.
  rewrite Hd. split; [|done].
  rewrite <- (app_nil_r pre), websocket_loop_continues by exact Hpre. done.
Qed.

(** ** Paginated listings *)

Lemma insert_listed_perm created_at (x : news_row) (l : list news_row) :
  Permutation (insert_listed created_at x l) (x :: l).
Proof.
  induction l as [|y l IH]; simpl; [done|].
  destruct (listed_before created_at x y); [done|].
  rewrite IH. apply perm_swap.
Qed.

Lemma listing_perm created_at (rows : list news_row) : Permutation (listing created_at rows) rows.
Proof.
  unfold listing.
  assert (H : forall acc, Permutation (fold_left (fun acc x => insert_listed created_at x acc) rows acc)
                            (rows ++ acc)).
  { induction rows as [|x l IH]; intros acc; simpl; [done|].
    rewrite IH, insert_listed_perm. symmetry. apply Permutation_middle. }
  rewrite H. by rewrite app_nil_r.
Qed.

Lemma listed_before_asym created_at (a b : news_row) :
  listed_before created_at a b = true -> listed_before created_at b a = false.
Proof.
  unfold listed_before.
  destruct (created_at a) as [x|], (created_at b) as [y|]; try done.
  - intros H. apply orb_true_iff in H.
    apply not_true_iff_false. intros H'. apply orb_true_iff in H'.
    destruct H as [H|H], H' as [H'|H'];
      repeat match goal with
      | h : (_ && _) = true |- _ => apply andb_true_iff in h as [? ?]
      end;
      repeat match goal with
      | h : (_ <? _)%Z = true |- _ => apply Z.ltb_lt in h
      | h : (_ =? _)%Z = true |- _ => apply Z.eqb_eq in h
      end; lia.
  - intros H. apply Z.ltb_lt in H. apply Z.ltb_ge. lia.
Qed.

Lemma insert_listed_sorted created_at (x : news_row) (l : list news_row) :
  Sorted (listed_no_later created_at) l ->
  Sorted (listed_no_later created_at) (insert_listed created_at x l).
Proof.
  induction 1 as [|y l Hs IH Hhd]; simpl; [by repeat constructor|].
  case_eq (listed_before created_at x y); intros E.
  - constructor; [by constructor|]. constructor. by apply listed_before_asym.
  - constructor; [exact IH|].
    destruct l as [|z l]; simpl; [by constructor|].
    inversion Hhd; subst.
    destruct (listed_before created_at x z); by constructor.
Qed.

Lemma listing_sorted created_at (rows : list news_row) :
  Sorted (listed_no_later created_at) (listing created_at rows).
Proof.
  unfold listing.
  assert (H : forall acc, Sorted (listed_no_later created_at) acc ->
            Sorted (listed_no_later created_at)
              (fold_left (fun acc x => insert_listed created_at x acc) rows acc)).
  { induction rows as [|x l IH]; intros acc Hacc; simpl; [done|].
    apply IH. by apply insert_listed_sorted. }
  apply H. constructor.
Qed.

Lemma firstn_app_next {A} (a m : nat) (l : list A) :
  firstn a l ++ firstn m (skipn a l) = firstn (a + m) l.
Proof.
  rewrite firstn_skipn_comm.
  rewrite <- (firstn_skipn a (firstn (a + m) l)) at 2.
  rewrite firstn_firstn. f_equal. f_equal. lia.
Qed.

Lemma get_news_page_items created_at rows (p : nat) (limit : Z) :
  (0 <= limit <= INT64_MAX)%Z -> (Z.of_nat p * limit <= INT64_MAX)%Z ->
  get_news created_at rows (Z.of_nat (S p)) limit =
  Some (mk_news_page (firstn (Z.to_nat limit) (skipn (p * Z.to_nat limit) (listing created_at rows)))
          (Z.of_nat (length rows)) (Z.of_nat (S p)) limit).
Proof.
  intros Hl Hp. unfold get_news.
  replace (Z.of_nat (S p) - 1)%Z with (Z.of_nat p) by lia.
  assert (H1 : fits_int64 limit = true).
  { unfold fits_int64, INT64_MIN, INT64_MAX in *. apply andb_true_iff.
    split; apply Z.leb_le; lia. }
  assert (H2 : fits_int64 (Z.of_nat p * limit) = true).
  { unfold fits_int64, INT64_MIN, INT64_MAX in *. apply andb_true_iff.
    split; apply Z.leb_le; nia. }
  rewrite H1, H2. simpl. rewrite (proj2 (Z.ltb_ge limit 0)) by lia.
  rewrite Z2Nat.inj_mul by lia. by rewrite Nat2Z.id.
Qed.

(** The listings [get_news], [get_yemen_news] and [get_newspaper_news]
    with a limit between 0 and the 64-bit maximum: as long as the offset
    of page n fits in 64 bits, pages 1 to n all answer, and put one after
    the other they are the first n * limit rows of the table in listing
    order, so no row is shown twice and none is skipped; once n * limit
    reaches the table's size the pages hold every row exactly once.  In
    that order no row comes after a row that [created_at DESC, id DESC]
    puts after it.  A page number of 1 or less gives the first page's
    items, unless its (negative) offset does not fit in 64 bits, where the
    request fails; [total] is the number of rows. *)
Theorem get_news_pages_partition created_at rows (limit : Z) (n : nat) :
  (0 <= limit <= INT64_MAX)%Z -> ((Z.of_nat n - 1) * limit <= INT64_MAX)%Z ->
  Forall (fun p => is_Some (get_news created_at rows (Z.of_nat p) limit)) (seq 1 n) /\
  concat (map (fun p => page_items (get_news created_at rows (Z.of_nat p) limit)) (seq 1 n)) =
    firstn (n * Z.to_nat limit) (listing created_at rows) /\
  ((length rows <= n * Z.to_nat limit)%nat ->
   Permutation (concat (map (fun p => page_items (get_news created_at rows (Z.of_nat p) limit))
                              (seq 1 n))) rows) /\
  (forall page, (page <= 1)%Z ->
     option_map np_items (get_news created_at rows page limit) =
     if bool_decide (INT64_MIN <= (page - 1) * limit)%Z
     then option_map np_items (get_news created_at rows 1 limit) else None) /\
  option_map np_total (get_news created_at rows 1 limit) = Some (Z.of_nat (length rows)) /\
  Sorted (listed_no_later created_at) (listing created_at rows).
Proof.
  intros Hl Hn.
  assert (Hpage : forall p, (p < n)%nat ->
            get_news created_at rows (Z.of_nat (S p)) limit =
            Some (mk_news_page (firstn (Z.to_nat limit)
                                  (skipn (p * Z.to_nat limit) (listing created_at rows)))
                    (Z.of_nat (length rows)) (Z.of_nat (S p)) limit)).
  { intros p Hp. apply get_news_page_items; [exact Hl|].
    assert (Z.of_nat p <= Z.of_nat n - 1)%Z by lia. nia. }
  assert (Hc : forall m, (m <= n)%nat ->
            concat (map (fun p => page_items (get_news created_at rows (Z.of_nat p) limit))
                      (seq 1 m)) = firstn (m * Z.to_nat limit) (listing created_at rows)).
  { induction m as [|m IH]; intros Hm; [done|].
    rewrite seq_S, map_app, concat_app, IH by lia. cbn [map concat]. rewrite app_nil_r.
    replace (1 + m)%nat with (S m) by lia.
    rewrite Hpage by lia. simpl page_items. rewrite firstn_app_next. f_equal. lia. }
  split; [|split; [by apply Hc|split; [|split]]].
  - apply Forall_forall. intros p Hp. apply list_elem_of_In, in_seq in Hp.
    replace p with (S (p - 1)) by lia. rewrite Hpage by lia. eexists. reflexivity.
  - intros Hlen. rewrite Hc, firstn_all2 by (try lia; rewrite (Permutation_length (listing_perm created_at rows)); exact Hlen).
    apply listing_perm.
  - intros page Hp.
    assert (Hs : ((page - 1) * limit <= 0)%Z) by nia.
    assert (H1 : fits_int64 limit = true).
    { unfold fits_int64, INT64_MIN, INT64_MAX in *. apply andb_true_iff.
      split; apply Z.leb_le; lia. }
    unfold get_news. replace (1 - 1)%Z with 0%Z by lia. rewrite Z.mul_0_l.
    rewrite H1. simpl andb.
    replace (fits_int64 0) with true by reflexivity.
    unfold fits_int64 at 1. rewrite (proj2 (Z.leb_le _ INT64_MAX)) by (unfold INT64_MAX; lia).
    rewrite andb_true_r. case_bool_decide as Hmin.
    + rewrite (proj2 (Z.leb_le _ _) Hmin). simpl.
      rewrite (Z2Nat.nonpos ((page - 1) * limit)) by exact Hs. reflexivity.
    + rewrite (proj2 (Z.leb_gt _ _)) by lia. reflexivity.
  - split; [|apply listing_sorted].
    unfold get_news. replace (1 - 1)%Z with 0%Z by lia. rewrite Z.mul_0_l.
    assert (H1 : fits_int64 limit = true).
    { unfold fits_int64, INT64_MIN, INT64_MAX in *. apply andb_true_iff.
      split; apply Z.leb_le; lia. }
    rewrite H1. reflexivity.
Qed.

(** ** Witnesses *)

Lemma watermark_table_invariant_witness :
  wm_ok sample_full_wm /\
  wm_ok (update_watermarks 10 sample_full_wm (group_by_source sample_overlap_batch)) /\
  get_recent_ids (update_watermarks 10 sample_full_wm (group_by_source sample_overlap_batch))
    "Reuters" = Some ["n3"; "n1"; "n4"; "n5"; "n6"].
Proof.
  assert (Hok : wm_ok sample_full_wm).
  { unfold wm_ok, sample_full_wm. apply map_Forall_singleton. simpl. split.
    - apply (bool_decide_unpack _). vm_compute. reflexivity.
    - vm_compute. lia. }
  split; [exact Hok|]. split.
  - exact (proj1 (watermark_table_invariant 10 sample_full_wm Hok)
             (group_by_source sample_overlap_batch)).
  - vm_compute. reflexivity.
Defined.

Lemma thread_row_links_both_ends_witness :
  mk_event_thread 1 100 1 "world" (Some "world") "Gaza talks" "same talks" ∈ sample_threads /\
  (exists it, lookup_related sample_thread_rows [] [] (1%Z, "world") = Some it /\
              it ∈ resp_related_news (get_event_timeline sample_thread_rows [] [] sample_threads
                                        "world" 100)) /\
  (exists it, lookup_related sample_thread_rows [] [] (100%Z, "world") = Some it /\
              it ∈ resp_related_news (get_event_timeline sample_thread_rows [] [] sample_threads
                                        "world" 1)).
Proof.
  assert (Ht : mk_event_thread 1 100 1 "world" (Some "world") "Gaza talks" "same talks"
               ∈ sample_threads) by (apply elem_of_cons; left; reflexivity).
  destruct (thread_row_links_both_ends sample_thread_rows [] [] sample_threads
              (mk_event_thread 1 100 1 "world" (Some "world") "Gaza talks" "same talks") "world"
              Ht eq_refl ltac:(discriminate)) as [H1 H2].
  split; [exact Ht|]. split.
  - eexists. split; [reflexivity|]. apply H1. reflexivity.
  - eexists. split; [reflexivity|]. apply H2. reflexivity.
Defined.


Lemma websocket_session_outcome_witness :
  (3%nat ∉ [1%nat; 2%nat]) /\
  websocket_endpoint [1%nat; 2%nat] 3%nat
    ([WsText "pong"; WsTimeout true] ++ WsTimeout false :: [WsText "late"]) =
  ([1%nat; 2%nat; 3%nat], false).
Proof.
  assert (Hw : 3%nat ∉ [1%nat; 2%nat]) by (apply (bool_decide_unpack _); vm_compute; reflexivity).
  split; [exact Hw|].
  exact (proj2 (proj2 (proj2 (websocket_session_outcome [1%nat; 2%nat] 3%nat
           [WsText "pong"; WsTimeout true] [WsText "late"] Hw eq_refl)))).
Defined.

Lemma get_news_pages_partition_witness :
  (0 <= 2 <= INT64_MAX)%Z /\ ((Z.of_nat 3 - 1) * 2 <= INT64_MAX)%Z /\
  Permutation (concat (map (fun p => page_items (get_news (fun r => Some (row_published r))
                                                   sample_thread_rows (Z.of_nat p) 2))
                          (seq 1 3))) sample_thread_rows /\
  option_map np_items (get_news (fun r => Some (row_published r)) sample_thread_rows
                         (- 10 ^ 19) 1) = None.
Proof.
  assert (Hl : (0 <= 2 <= INT64_MAX)%Z) by (unfold INT64_MAX; lia).
  assert (Hn : ((Z.of_nat 3 - 1) * 2 <= INT64_MAX)%Z) by (unfold INT64_MAX; lia).
  split; [exact Hl|]. split; [exact Hn|]. split.
  - apply (proj1 (proj2 (proj2 (get_news_pages_partition (fun r => Some (row_published r))
                                   sample_thread_rows 2 3 Hl Hn)))).
    vm_compute. lia.
  - vm_compute. reflexivity.
Defined.
